(** * PDT: the fault-isolating batch executor [PD_TOL] of [src/PDT.py]

    A shallow embedding of the decorator and of the part of pandas it
    relies on, followed by the properties of the executor stated in the
    specification, by further properties of the executor, and by the
    behaviour of two decorated functions of [src/example_usage.py].
    Where the identity of a DataFrame object matters (an operation
    that changes its argument in place), the argument-bound loop is
    embedded a second time over a store of objects ([Objects]).

    - a [DataFrame] is the ordered list of its rows, each carrying its
      index label; [len], [index], [iloc], [drop], [reset_index] and
      [copy] are the pandas operations the decorator calls;
    - the host operation [func] is a Python function: it reads its bound
      arguments and its module globals, may mutate or rebind them, and
      either returns a value or raises.  It is embedded as a transformer
      of a [World] (bound arguments and [func.__globals__]);
    - the decorator is written in a small state / trace / exception
      monad, and its [while] loop by recursion on fuel.  Every call of
      the host operation is recorded in a trace, which is ghost state used
      only to state how often and on what the operation was called.

    Assumed of the inputs: index labels are integers (where the
    exception of [df.iloc] matters, 64-bit ones); a call of the host
    operation returns or raises an [Exception] (it does not diverge, and
    [BaseException]s such as [KeyboardInterrupt] are left out); the state
    a call can reach is the bound arguments and the module globals. *)

From stdpp Require Import base option list sorting gmap strings.

Local Open Scope Z_scope.

(** ** The part of pandas used by the decorator *)

Module Pandas.
(** Rows in order, each with its index label. *)
Abbreviation DataFrame Row := (list (Z * Row)).

Section DataFrame.
Context {Row : Type}.
Implicit Type df : DataFrame Row.

(** [len(df)] *)
Definition len df : Z := Z.of_nat (length df).

(** [df.index], the labels in row order. *)
Definition index df : list Z := df.*1.

(** [df.copy()]: a deep copy holds the same rows and labels.  This is
    the content of the copy; that the copy is a new object, which the
    operation can change without changing [df], is modelled in
    [Objects] below. *)
Definition copy df : DataFrame Row := df.

(** [df.iloc[[i]]]: the one-row frame at POSITION [i], with the label it
    has in [df].  Negative positions count from the end; a position
    outside [-len, len) raises, here [None].  What is raised is
    [IndexError] for a position in the range of a 64-bit integer (see
    [int64_labels]); past that range the conversion of the position to
    a machine integer decides ([OverflowError], for one), and the
    embedding does not follow it. *)
Definition iloc df (i : Z) : option (DataFrame Row) :=
  if decide (0 ≤ i < len df) then (λ r, [r]) <$> df !! Z.to_nat i
  else if decide (- len df ≤ i < 0) then
         (λ r, [r]) <$> df !! Z.to_nat (len df + i)
  else None.

(** [df.drop(list(labels))]: removes every row whose LABEL is listed;
    a listed label that is not in the index raises [KeyError], here
    [None]. *)
Definition drop (labels : gset Z) df : option (DataFrame Row) :=
  if decide (Forall (λ l, l ∈ index df) (elements labels))
  then Some (filter (λ r, r.1 ∉ labels) df)
  else None.

(** [df.reset_index(drop=True)]: labels become 0..n-1. *)
Definition reset_index df : DataFrame Row :=
  imap (λ i r, (Z.of_nat i, r.2)) df.


(** The default index 0..n-1 (a [RangeIndex]). *)
Definition range_indexed df : Prop :=
  index df = seqZ 0 (len df).

End DataFrame.
End Pandas.
Import Pandas.

(** ** Python values, namespaces and the host operation *)

Section PDT.
Context {Row Other Err : Type}.

(** Values the decorator tells apart: [None], a [pd.DataFrame], or
    anything else. *)
Inductive value :=
| VNone
| VDataFrame (df : DataFrame Row)
| VOther (o : Other).

(** Exceptions: the two that pandas and [dict] raise inside the
    decorator, and whatever the host operation raises. *)
Inductive exn :=
| IndexError
| KeyError
| HostError (e : Err).

(** An insertion-ordered [dict] from names to values: [ba.arguments]
    and [func.__globals__] are both searched in order. *)
Definition namespace := list (string * value).

(** [ns[name]] *)
Fixpoint ns_get (name : string) (ns : namespace) : option value :=
  match ns with
  | [] => None
  | (k, v) :: ns' => if decide (k = name) then Some v else ns_get name ns'
  end.

(** [ns[name] = v]: an existing key keeps its place, a new key is
    appended. *)
Fixpoint ns_set (name : string) (v : value) (ns : namespace) : namespace :=
  match ns with
  | [] => [(name, v)]
  | (k, x) :: ns' =>
      if decide (k = name) then (k, v) :: ns' else (k, x) :: ns_set name v ns'
  end.

(** The search of lines 18-23 and 25-30: the first binding whose value
    is a DataFrame. *)
Fixpoint find_df (ns : namespace) : option (string * DataFrame Row) :=
  match ns with
  | [] => None
  | (k, VDataFrame d) :: _ => Some (k, d)
  | _ :: ns' => find_df ns'
  end.

(** What a call of the host operation can see and change. *)
Record World := mkWorld {
  arguments : namespace;    (* the bound call arguments, [ba.arguments] *)
  globals : namespace       (* [func.__globals__] *)
}.

Inductive outcome :=
| Return (v : value)
| Raise (e : exn).

Definition HostOp := World → World * outcome.

Definition raises (o : outcome) : bool :=
  match o with Raise _ => true | Return _ => false end.

(** ** The trace of host-operation calls (ghost) *)

Inductive event :=
| Direct                                   (* line 32 *)
| Batch (df : DataFrame Row)               (* lines 41 and 45 *)
| Probe (i : Z) (tmp : DataFrame Row) (raised : bool)  (* lines 58, 61 *)
| Exclude (bad_rows : gset Z) (df df' : DataFrame Row).  (* line 66 *)

Definition is_call (ev : event) : bool :=
  match ev with Exclude _ _ _ => false | _ => true end.
Definition is_batch (ev : event) : bool :=
  match ev with Batch _ => true | _ => false end.
Definition is_probe (ev : event) : bool :=
  match ev with Probe _ _ _ => true | _ => false end.

(** Number of calls of the host operation, of batch attempts
    (rounds) and of probes in a trace. *)
Definition host_calls (tr : list event) : nat := length (filter is_call tr).
Definition rounds (tr : list event) : nat := length (filter is_batch tr).
Definition probes (tr : list event) : nat := length (filter is_probe tr).


(** ** The monad: world, trace, exceptions *)

Definition M (A : Type) : Type := World → World * list event * (exn + A).

Definition ret {A} (a : A) : M A := λ w, (w, [], inr a).
Definition raise {A} (e : exn) : M A := λ w, (w, [], inl e).
Definition bind {A B} (m : M A) (k : A → M B) : M B := λ w,
  match m w with
  | (w1, t1, inl e) => (w1, t1, inl e)
  | (w1, t1, inr a) =>
      match k a w1 with (w2, t2, r) => (w2, t1 ++ t2, r) end
  end.
(** [try: m  except Exception as e: h e] *)
Definition try_except {A} (m : M A) (h : exn → M A) : M A := λ w,
  match m w with
  | (w1, t1, inl e) =>
      match h e w1 with (w2, t2, r) => (w2, t1 ++ t2, r) end
  | (w1, t1, inr a) => (w1, t1, inr a)
  end.
Definition log (ev : event) : M unit := λ w, (w, [ev], inr tt).
Definition lift {A} (e : exn) (o : option A) : M A :=
  match o with Some a => ret a | None => raise e end.

#[global] Instance M_ret : MRet M := @ret.
#[global] Instance M_bind : MBind M := λ A B k m, bind m k.

(** ** The decorator *)

Section Wrapper.
Variable func : HostOp.

(** [func(...)]: the call arguments are the world's [arguments]. *)
Definition call : M value := λ w,
  match func w with
  | (w', Return v) => (w', [], inr v)
  | (w', Raise e) => (w', [], inl e)
  end.

(** The loop of lines 33-74 for a resolved target. *)
Section Target.
Variable df_in_globals : bool.
Variable df_name : string.

(** The world after [func.__globals__[df_name] = v] (line 40, 57,
    72) or [ba.arguments[df_name] = v] (line 44, 60). *)
Definition rebind (v : value) (w : World) : World :=
  if df_in_globals
  then mkWorld (arguments w) (ns_set df_name v (globals w))
  else mkWorld (ns_set df_name v (arguments w)) (globals w).

Definition set_target (v : value) : M unit := λ w,
  (rebind v w, [], inr tt).

(** [func.__globals__[df_name]] *)
Definition get_global : M value := λ w,
  lift KeyError (ns_get df_name (globals w)) w.

(** Lines 42 and 46-47: what [df] becomes after a call that
    returned [result]. *)
Definition adopt (df : DataFrame Row) (result : value) : M value :=
  if df_in_globals then get_global
  else ret (match result with VNone => VDataFrame df | _ => result end).

(** Lines 39-47, the body of the outer [try] up to the [break]:
    the value [df] holds when the [break] is reached. *)
Definition attempt (df : DataFrame Row) : M value :=
  log (Batch df);;
  set_target (VDataFrame (copy df));;
  result ← call;
  adopt df result.

(** Lines 53-63, the [for i in df.index] loop. *)
Fixpoint probe_rows (df : DataFrame Row) (idx : list Z)
    (bad_rows : gset Z) : M (gset Z) :=
  match idx with
  | [] => ret bad_rows
  | i :: idx' =>
      tmp ← lift IndexError (copy <$> iloc df i);
      set_target (VDataFrame tmp);;
      raised ← try_except (bind call (λ _, ret false)) (λ _, ret true);
      log (Probe i tmp raised);;
      probe_rows df idx'
        (if raised : bool then {[i]} ∪ bad_rows else bad_rows)
  end.

(** How one pass through the [while] body ends. *)
Inductive control :=
| Continue (df : DataFrame Row)   (* falls through to the loop test *)
| Break (df : value)              (* [break], then [return df] *)
| ReturnNone.                     (* the bare [return] of line 73 *)

(** Lines 38-73, one round. *)
Definition round (df : DataFrame Row) : M control :=
  try_except
    (v ← attempt df; ret (Break v))
    (λ _,
      bad_rows ← probe_rows df (index df) ∅;
      if decide (bad_rows = ∅) then ret (Break (VDataFrame df))
      else
        dropped ← lift KeyError (drop bad_rows df);
        let df' := reset_index dropped in
        log (Exclude bad_rows df df');;
        if decide (len df' = 0) then
          (if df_in_globals then set_target (VDataFrame (copy df'))
           else ret ());;
          ret ReturnNone
        else ret (Continue df')).

(** The four ways a round can end ([round_inv] below shows there
    are no others): the attempt succeeds; the attempt fails and
    a probe position is out of range; the attempt fails and no
    probe fails; the attempt fails and the rows labelled
    [bad_rows] are excluded. *)
Inductive round_case (df : DataFrame Row) (w : World)
    : World * list event * (exn + control) → Prop :=
| round_success w1 v :
    attempt df w = (w1, [Batch df], inr v) →
    round_case df w (w1, [Batch df], inr (Break v))
| round_index_error w1 e w2 ps :
    attempt df w = (w1, [Batch df], inl e) →
    probe_rows df (index df) ∅ w1 = (w2, ps, inl IndexError) →
    round_case df w (w2, Batch df :: ps, inl IndexError)
| round_irreproducible w1 e w2 ps :
    attempt df w = (w1, [Batch df], inl e) →
    probe_rows df (index df) ∅ w1 = (w2, ps, inr ∅) →
    round_case df w (w2, Batch df :: ps, inr (Break (VDataFrame df)))
| round_exclude w1 e w2 ps bad_rows df' :
    attempt df w = (w1, [Batch df], inl e) →
    probe_rows df (index df) ∅ w1 = (w2, ps, inr bad_rows) →
    bad_rows ≠ ∅ →
    df' = reset_index (filter (λ r, r.1 ∉ bad_rows) df) →
    round_case df w
      (if decide (len df' = 0)
       then (if df_in_globals then rebind (VDataFrame df') w2 else w2,
             Batch df :: ps ++ [Exclude bad_rows df df'], inr ReturnNone)
       else (w2, Batch df :: ps ++ [Exclude bad_rows df df'],
             inr (Continue df'))).

(** Lines 36-74.  [None] only when the fuel runs out. *)
Fixpoint loop (fuel : nat) (last_len : Z) (df : DataFrame Row)
    (w : World) : option (World * list event * (exn + value)) :=
  match fuel with
  | O => None
  | S fuel' =>
      if decide (last_len = len df) then Some (w, [], inr (VDataFrame df))
      else
        match round df w with
        | (w1, t1, inl e) => Some (w1, t1, inl e)
        | (w1, t1, inr (Break v)) => Some (w1, t1, inr v)
        | (w1, t1, inr ReturnNone) => Some (w1, t1, inr VNone)
        | (w1, t1, inr (Continue df')) =>
            match loop fuel' (len df) df' w1 with
            | Some (w2, t2, r) => Some (w2, t1 ++ t2, r)
            | None => None
            end
        end
  end.
End Target.

(** Target resolution, lines 15-30: [(df_in_globals, df_name, df)]. *)
Definition resolve (w : World) : option (bool * string * DataFrame Row) :=
  match find_df (arguments w) with
  | Some (df_name, df) => Some (false, df_name, df)
  | None =>
      match find_df (globals w) with
      | Some (df_name, df) => Some (true, df_name, df)
      | None => None
      end
  end.

(** The decorated function, lines 8-74. *)
Definition wrapper (fuel : nat) (w : World)
    : option (World * list event * (exn + value)) :=
  match resolve w with
  | None => Some ((log Direct;; call) w)
  | Some (df_in_globals, df_name, df) =>
      loop df_in_globals df_name fuel (-1) df w
  end.

(** Rounds the loop is given: one more than the rows of the target. *)
Definition enough (w : World) : nat :=
  match resolve w with
  | Some (_, _, df) => S (length df)
  | None => O
  end.
End Wrapper.

Definition PD_TOL (func : HostOp) (w : World)
    : option (World * list event * (exn + value)) :=
  wrapper func (enough w) w.

End PDT.

Arguments value : clear implicits.
Arguments exn : clear implicits.
Arguments outcome : clear implicits.
Arguments event : clear implicits.
Arguments World : clear implicits.
Arguments HostOp : clear implicits.
Arguments namespace : clear implicits.

(** ** Object identity: the argument-bound loop over a store

    In the embedding above a DataFrame is a value, and an operation
    that changes its argument in place is one that rebinds the name.
    That is enough wherever the decorator is the only one to hold the
    collection.  Here DataFrames are objects: the store holds the
    content of each, values and bindings hold identities, [df.copy()]
    makes a new object, and the operation may change any object it can
    reach.  The loop of lines 33-74 is written again for an
    argument-bound target ([df_in_globals] false). *)

Module Objects.
Section Objects.
Context {Row Other Err : Type}.

Inductive pyvalue :=
| PyNone
| PyFrame (l : nat)              (* the identity of a DataFrame object *)
| PyOther (o : Other).

(** Names to values, in order: [ba.arguments], [func.__globals__]. *)
Definition bindings := list (string * pyvalue).

Fixpoint lookup_name (name : string) (b : bindings) : option pyvalue :=
  match b with
  | [] => None
  | (k, v) :: b' => if decide (k = name) then Some v else lookup_name name b'
  end.

Fixpoint bind_name (name : string) (v : pyvalue) (b : bindings) : bindings :=
  match b with
  | [] => [(name, v)]
  | (k, x) :: b' =>
      if decide (k = name) then (k, v) :: b' else (k, x) :: bind_name name v b'
  end.

(** What a call can change: the DataFrame objects made so far (the
    identity of an object is its place in the list) and the globals of
    the module. *)
Record Mem := mkMem {
  frames : list (DataFrame Row);
  module_globals : bindings
}.

Inductive result :=
| Returned (v : pyvalue)
| Raised (e : exn Err).

(** The host operation, called with the bound arguments.  It cannot
    rebind [ba.arguments]; it can change the objects they name. *)
Definition HostFn := bindings → Mem → Mem * result.

(** The content of an object (the empty frame for an identity that
    names none; the loop only holds identities of objects). *)
Definition deref (m : Mem) (l : nat) : DataFrame Row :=
  default [] (frames m !! l).

(** A new object holding [df]: the result of [df.copy()], of
    [df.iloc[[i]].copy()] and of [df.drop(...).reset_index(...)].  The
    frames in between ([df.iloc[[i]]], [df.drop(...)]) are dropped at
    once and get no identity. *)
Definition new (df : DataFrame Row) (m : Mem) : nat * Mem :=
  (length (frames m), mkMem (frames m ++ [df]) (module_globals m)).

(** The operation changes no object that exists when it is called
    but the one its parameter [name] is bound to. *)
Definition mutates_only (func : HostFn) (name : string) : Prop :=
  ∀ b m l,
    (l < length (frames m))%nat →
    lookup_name name b ≠ Some (PyFrame l) →
    frames (func b m).1 !! l = frames m !! l.

(** The objects of [m0] are in [m], with the content they had. *)
Definition kept_objects (m0 m : Mem) : Prop :=
  ∀ l, (l < length (frames m0))%nat → frames m !! l = frames m0 !! l.

Section Loop.
Variable func : HostFn.
Variable df_name : string.
Variable ba : bindings.          (* [ba.arguments] after line 14 *)

(** Lines 44-45 and 60-61: [ba.arguments[df_name] = c] and the call
    of [func] with the bound arguments.  Only the binding of [df_name]
    ever changes in [ba.arguments]. *)
Definition call (c : nat) (m : Mem) : Mem * result :=
  func (bind_name df_name (PyFrame c) ba) m.

(** Lines 53-63; [l] is the object [df] names. *)
Fixpoint probe_rows (l : nat) (idx : list Z) (bad_rows : gset Z) (m : Mem)
    : Mem * (exn Err + gset Z) :=
  match idx with
  | [] => (m, inr bad_rows)
  | i :: idx' =>
      match iloc (deref m l) i with
      | None => (m, inl IndexError)
      | Some row =>
          let (tmp, m1) := new (copy row) m in
          match call tmp m1 with
          | (m2, Raised _) => probe_rows l idx' ({[i]} ∪ bad_rows) m2
          | (m2, Returned _) => probe_rows l idx' bad_rows m2
          end
      end
  end.

Inductive control :=
| Continue (l : nat)
| Break (v : pyvalue)
| ReturnNone.

(** Lines 38-73, one round on the object [l]. *)
Definition round (l : nat) (m : Mem)
    : Mem * (exn Err + control) :=
  let (c, m1) := new (copy (deref m l)) m in
  match call c m1 with
  | (m2, Returned r) =>
      (m2, inr (Break (match r with PyNone => PyFrame l | _ => r end)))
  | (m2, Raised _) =>
      match probe_rows l (index (deref m2 l)) ∅ m2 with
      | (m3, inl e) => (m3, inl e)
      | (m3, inr bad_rows) =>
          if decide (bad_rows = ∅) then (m3, inr (Break (PyFrame l)))
          else
            match drop bad_rows (deref m3 l) with
            | None => (m3, inl KeyError)
            | Some dropped =>
                let (l', m4) := new (reset_index dropped) m3 in
                if decide (len (deref m4 l') = 0) then (m4, inr ReturnNone)
                else (m4, inr (Continue l'))
            end
      end
  end.

(** Lines 36-74.  [None] only when the fuel runs out. *)
Fixpoint loop (fuel : nat) (last_len : Z) (l : nat) (m : Mem)
    : option (Mem * (exn Err + pyvalue)) :=
  match fuel with
  | O => None
  | S fuel' =>
      if decide (last_len = len (deref m l)) then Some (m, inr (PyFrame l))
      else
        match round l m with
        | (m1, inl e) => Some (m1, inl e)
        | (m1, inr (Break v)) => Some (m1, inr v)
        | (m1, inr ReturnNone) => Some (m1, inr PyNone)
        | (m1, inr (Continue l')) => loop fuel' (len (deref m l)) l' m1
        end
  end.
End Loop.
End Objects.

Arguments pyvalue : clear implicits.
Arguments bindings : clear implicits.
Arguments Mem : clear implicits.
Arguments result : clear implicits.
Arguments HostFn : clear implicits.
End Objects.

(** ** Host operations in the style of [example_usage.py] *)

Module Examples.
(** A row is reduced to its salary cell: a number, or a string that
    has slipped into the numeric column. *)
Inductive cell :=
| Num (z : Z)
| Str (s : string).

#[global] Instance cell_eq_dec : EqDecision cell.
Proof. solve_decision. Defined.

Abbreviation world := (World cell Z).
Abbreviation host_op := (HostOp cell Z string).

(** A frame with the default index. *)
Definition frame (cells : list cell) : DataFrame cell :=
  imap (λ i c, (Z.of_nat i, c)) cells.

(** Column arithmetic: fails on the first non-numeric cell. *)
Definition column (f : Z → Z) (df : DataFrame cell)
    : option (DataFrame cell) :=
  mapM (λ r, match r.2 with
             | Num z => Some (r.1, Num (f z))
             | Str _ => None
             end) df.

Definition bound_frame (in_globals : bool) (name : string) (w : world)
    : option (DataFrame cell) :=
  match ns_get name (if in_globals then globals w else arguments w) with
  | Some (VDataFrame df) => Some df
  | _ => None
  end.

(** [calculate_salary_in_thousands(df)] on the salary column alone,
    with whole numbers: [df["salary"] = df["salary"] // 1000; return df].
    (The function as written adds a column and divides exactly; it is
    [Usage.calculate_salary_in_thousands] below.) *)
Definition calculate_salary_in_thousands : host_op := λ w,
  match bound_frame false "df" w with
  | Some df =>
      match column (λ z, z / 1000) df with
      | Some df' =>
          (rebind false "df" (VDataFrame df') w, Return (VDataFrame df'))
      | None => (w, Raise (HostError "TypeError"))
      end
  | None => (w, Raise (HostError "NameError"))
  end.

(** The same computation done in place, without [return]. *)
Definition scale_salary_in_place : host_op := λ w,
  match bound_frame false "df" w with
  | Some df =>
      match column (λ z, z / 1000) df with
      | Some df' => (rebind false "df" (VDataFrame df') w, Return VNone)
      | None => (w, Raise (HostError "TypeError"))
      end
  | None => (w, Raise (HostError "NameError"))
  end.

(** [modify_global_dataframe()] on the salary column alone, with
    whole numbers: [df_global["salary"] = df_global["salary"] * 105 // 100],
    in place, returning nothing.  (The function as written is
    [Usage.modify_global_dataframe] below.) *)
Definition modify_global_dataframe : host_op := λ w,
  match bound_frame true "df_global" w with
  | Some df =>
      match column (λ z, z * 105 / 100) df with
      | Some df' => (rebind true "df_global" (VDataFrame df') w, Return VNone)
      | None => (w, Raise (HostError "TypeError"))
      end
  | None => (w, Raise (HostError "NameError"))
  end.

(** A cross-row rule (spec scenario 5): the salaries must be pairwise
    distinct.  No single row can violate it. *)
Definition has_duplicates (df : DataFrame cell) : bool :=
  bool_decide (¬ NoDup (df.*2)).

Definition reject_duplicates : host_op := λ w,
  match bound_frame false "df" w with
  | Some df =>
      if has_duplicates df then (w, Raise (HostError "ValueError"))
      else (w, Return (VDataFrame df))
  | None => (w, Raise (HostError "NameError"))
  end.

(** The global variant: raises the salaries in place, then checks the
    cross-row rule. *)
Definition raise_then_check_global : host_op := λ w,
  match bound_frame true "df_global" w with
  | Some df =>
      match column (λ z, z * 105 / 100) df with
      | Some df' =>
          let w' := rebind true "df_global" (VDataFrame df') w in
          if has_duplicates df' then (w', Raise (HostError "ValueError"))
          else (w', Return VNone)
      | None => (w, Raise (HostError "TypeError"))
      end
  | None => (w, Raise (HostError "NameError"))
  end.

(** An operation that takes no DataFrame at all. *)
Definition add_one : host_op := λ w,
  match ns_get "x" (arguments w) with
  | Some (VOther x) => (w, Return (VOther (x + 1)))
  | _ => (w, Raise (HostError "TypeError"))
  end.

(** Calls [f(df)] and [f()] with [df_global] set. *)
Definition call_with (df : DataFrame cell) : world :=
  mkWorld [("df", VDataFrame df)] [].
Definition call_global (df : DataFrame cell) : world :=
  mkWorld [] [("__name__", VOther 0); ("df_global", VDataFrame df)].

(** The frames of spec scenarios 1-5 (one row per case instead of a
    hundred). *)
Definition one_bad : DataFrame cell :=
  frame [Num 5000; Num 8000; Num 123; Num 124; Str "Tech"; Num 3000].
Definition three_bad : DataFrame cell :=
  frame [Num 5000; Str "a"; Num 123; Str "b"; Str "c"; Num 3000].
Definition all_good : DataFrame cell :=
  frame [Num 5000; Num 8000; Num 123; Num 124; Num 2000; Num 3000].
Definition all_bad : DataFrame cell :=
  frame [Str "a"; Str "b"; Str "c"; Str "d"; Str "e"; Str "f"].
Definition two_equal : DataFrame cell :=
  frame [Num 5000; Num 8000; Num 5000].

(** A frame whose index is not the default one, as [sort_values] or a
    row filter leaves it: the row labelled 1 comes first. *)
Definition permuted : DataFrame cell := [(1, Num 5000); (0, Str "Tech")].

(** A call [f(factor, df)] of a module that also has a global frame. *)
Definition call_mixed : world :=
  mkWorld [("factor", VOther 2); ("df", VDataFrame one_bad)]
          [("df_global", VDataFrame all_good)].

(** The rows on which the salary operations fail. *)
Definition is_str (c : cell) : bool :=
  match c with Str _ => true | Num _ => false end.

(** The probes of a round on [frame cells] for an operation that
    fails on exactly the rows satisfying [fails]. *)
Definition probes_of (fails : cell → bool) (cells : list cell)
    : list (event cell) :=
  imap (λ i c, Probe (Z.of_nat i) [(Z.of_nat i, c)] (fails c)) cells.

(** The runs on these frames: what is kept, the trace, the world left. *)
Definition one_bad_kept : DataFrame cell :=
  frame [Num 5000; Num 8000; Num 123; Num 124; Num 3000].
Definition one_bad_trace : list (event cell) :=
  Batch one_bad ::
  probes_of is_str [Num 5000; Num 8000; Num 123; Num 124; Str "Tech"; Num 3000]
  ++ [Exclude {[4]} one_bad one_bad_kept; Batch one_bad_kept].
Definition one_bad_done : world :=
  call_with (frame [Num 5; Num 8; Num 0; Num 0; Num 3]).
Definition three_bad_kept : DataFrame cell :=
  frame [Num 5000; Num 123; Num 3000].
Definition three_bad_trace : list (event cell) :=
  Batch three_bad ::
  probes_of is_str [Num 5000; Str "a"; Num 123; Str "b"; Str "c"; Num 3000]
  ++ [Exclude {[1; 3; 4]} three_bad three_bad_kept; Batch three_bad_kept].
Definition permuted_trace : list (event cell) :=
  [Batch permuted;
   Probe 1 [(0, Str "Tech")] true; Probe 0 [(1, Num 5000)] false;
   Exclude {[1]} permuted [(0, Str "Tech")];
   Batch [(0, Str "Tech")]; Probe 0 [(0, Str "Tech")] true;
   Exclude {[0]} [(0, Str "Tech")] []].
Definition two_equal_trace : list (event cell) :=
  Batch two_equal :: probes_of is_str [Num 5000; Num 8000; Num 5000].
Definition all_bad_trace : list (event cell) :=
  Batch all_bad ::
  probes_of is_str [Str "a"; Str "b"; Str "c"; Str "d"; Str "e"; Str "f"]
  ++ [Exclude {[0; 1; 2; 3; 4; 5]} all_bad []].
End Examples.

(** ** Further frames and operations used in instances *)

Module Cases.
Import Examples.


(** [del ns[name]] *)
Fixpoint ns_del {Row Other} (name : string) (ns : namespace Row Other)
    : namespace Row Other :=
  match ns with
  | [] => []
  | (k, v) :: ns' =>
      if decide (k = name) then ns_del name ns' else (k, v) :: ns_del name ns'
  end.

(** [param["salary"] = param["salary"] // 1000]: changes the frame
    its parameter [param] names, in place, and returns nothing. *)
Definition floor_in_place (param : string) : Objects.HostFn cell Z string :=
  λ b m,
    match Objects.lookup_name param b with
    | Some (Objects.PyFrame l) =>
        match column (λ z, z / 1000) (Objects.deref m l) with
        | Some df' =>
            (Objects.mkMem (<[l := df']> (Objects.frames m))
               (Objects.module_globals m),
             Objects.Returned Objects.PyNone)
        | None => (m, Objects.Raised (HostError "TypeError"))
        end
    | _ => (m, Objects.Raised (HostError "TypeError"))
    end.

(** The store of a call [f(df)]: the caller's frame is object 0.
    After the call the decorator makes, the copy is object 1; the
    change has reached one of the two. *)
Definition all_good_floored : DataFrame cell :=
  frame [Num 5; Num 8; Num 0; Num 0; Num 2; Num 3].
Definition caller_frame : Objects.Mem cell Z :=
  Objects.mkMem [all_good] [].
Definition copy_changed : Objects.Mem cell Z :=
  Objects.mkMem [all_good; all_good_floored] [].
Definition original_changed : Objects.Mem cell Z :=
  Objects.mkMem [all_good_floored; all_good] [].

(** [global df_global; del df_global] *)
Definition forget_global : host_op := λ w,
  (mkWorld (arguments w) (ns_del "df_global" (globals w)), Return VNone).
End Cases.

(** ** The functions of [example_usage.py] *)

Module Usage.
(** A cell of the sample data: a Python [int] or [str]. *)
Inductive pyval :=
| PyInt (z : Z)
| PyStr (s : string).

Section Employees.
(** [Rest]: the columns of a row that the two functions below do not
    read.  [F]: Python floats, with the two operations the functions
    apply to an [int] salary.  Their values are left to the
    interpreter, and so is their overflow: [None] stands for the
    [OverflowError] of an [int] too large for a float. *)
Context {Rest F : Type}.
Variable truediv : Z → Z → option F.    (* [z / 1000], an int by an int *)
Variable mul_float : Z → F → option F.  (* [z * 1.05], an int by a float *)
Variable f1_05 : F.                     (* the literal [1.05] *)

(** A row: its [salary] cell, its other columns, and the two columns
    the functions add ([None] while the column does not exist). *)
Record employee := mkEmployee {
  salary : pyval;
  rest : Rest;
  salary_k : option F;
  adjusted_salary : option F
}.

Abbreviation world := (World employee Z).
Abbreviation host_op := (HostOp employee Z string).

(** One row of [df["salary_k"] = df["salary"] / 1000], or the name of
    the exception the division raises: [TypeError] on a [str] salary,
    [OverflowError] on an [int] whose quotient is no float. *)
Definition in_thousands (r : employee) : string + employee :=
  match salary r with
  | PyInt z =>
      match truediv z 1000 with
      | Some q =>
          inr (mkEmployee (salary r) (rest r) (Some q) (adjusted_salary r))
      | None => inl "OverflowError"
      end
  | PyStr _ => inl "TypeError"
  end.

(** One row of [df_global["adjusted_salary"] = df_global["salary"] * 1.05]. *)
Definition adjusted (r : employee) : string + employee :=
  match salary r with
  | PyInt z =>
      match mul_float z f1_05 with
      | Some q => inr (mkEmployee (salary r) (rest r) (salary_k r) (Some q))
      | None => inl "OverflowError"
      end
  | PyStr _ => inl "TypeError"
  end.

(** A column assignment: the rows are computed in order and the first
    exception ends the computation; every row is computed before any
    is written, so a failure leaves the frame as it was. *)
Fixpoint assign (f : employee → string + employee) (df : DataFrame employee)
    : string + DataFrame employee :=
  match df with
  | [] => inr []
  | x :: df' =>
      match f x.2 with
      | inl e => inl e
      | inr r =>
          match assign f df' with
          | inl e => inl e
          | inr d => inr ((x.1, r) :: d)
          end
      end
  end.

(** Lines 45-52, [calculate_salary_in_thousands(df)]: the frame passed
    is changed in place and returned. *)
Definition calculate_salary_in_thousands : host_op := λ w,
  match ns_get "df" (arguments w) with
  | Some (VDataFrame df) =>
      match assign in_thousands df with
      | inr df' =>
          (rebind false "df" (VDataFrame df') w, Return (VDataFrame df'))
      | inl e => (w, Raise (HostError e))
      end
  | _ => (w, Raise (HostError "TypeError"))
  end.

(** Lines 97-104, [modify_global_dataframe()]: the frame bound to the
    global [df_global] is changed in place; nothing is returned.  While
    [df_global] is [None] (line 95) subscripting it raises. *)
Definition modify_global_dataframe : host_op := λ w,
  match ns_get "df_global" (globals w) with
  | Some (VDataFrame df) =>
      match assign adjusted df with
      | inr df' => (rebind true "df_global" (VDataFrame df') w, Return VNone)
      | inl e => (w, Raise (HostError e))
      end
  | Some _ => (w, Raise (HostError "TypeError"))
  | None => (w, Raise (HostError "NameError"))
  end.
End Employees.
Arguments employee : clear implicits.

Section Kept.
Context {Rest F : Type}.
Variable f : employee Rest F → string + employee Rest F.

(** The row computation [f] returns on [r]. *)
Definition succeeds (r : employee Rest F) : bool :=
  match f r with inr _ => true | inl _ => false end.

(** The rows a decorated call keeps, and what the functions make of a
    frame of such rows. *)
Definition kept (df : DataFrame (employee Rest F))
    : DataFrame (employee Rest F) :=
  reset_index (filter (λ x, succeeds x.2 = true) df).
Definition processed (df : DataFrame (employee Rest F))
    : DataFrame (employee Rest F) :=
  (λ x, (x.1, match f x.2 with inr r => r | inl _ => x.2 end)) <$> df.
End Kept.

(** Lines 14-41, [create_sample_data()]: [error_data], one period of
    its columns and the frame of a hundred periods.  The other columns
    of a row are [name], [age], [department] and [hire_date]; floats
    are written as fractions. *)
Abbreviation sample_row :=
  (employee (pyval * pyval * pyval * pyval) (Z * Z)).
Definition error_period : list sample_row :=
  (λ '(n, a, d, s, h), mkEmployee s (PyStr n, a, d, PyStr h) None None) <$>
  [("Alice", PyInt 25, PyStr "Sales", PyInt 5000, "2025/04/29 21:36:50");
   ("Bob", PyInt 30, PyStr "Tech", PyInt 8000, "2025/04/29 23:31:03");
   ("Charlie", PyInt 35, PyStr "Marketing", PyInt 123, "2025/01/30 00:04:20");
   ("David", PyInt 40, PyStr "Tech", PyInt 123, "2025/04/30 01:21:39");
   ("Eve", PyInt (-1), PyInt 3000, PyStr "Tech", "2025/04/29 14:17:19");
   ("Frank", PyInt 30, PyStr "Tech", PyInt 3000, "")].
Definition error_df : DataFrame sample_row :=
  imap (λ i r, (Z.of_nat i, r)) (mjoin (replicate 100 error_period)).

(** Lines 125 and 157-161 of [demonstrate_decorator()]: the calls
    [calculate_salary_in_thousands(error_df.copy())] and, after
    [df_global = error_df.copy()], [modify_global_dataframe()]. *)
Definition salary_call : World sample_row Z :=
  mkWorld [("df", VDataFrame error_df)] [].
Definition global_call : World sample_row Z :=
  mkWorld [] [("__name__", VOther 0); ("df_global", VDataFrame error_df)].

(** Stand-ins for the two float operations, for running the
    functions: exact fractions, and an [int] of more than 1024 bits
    taken not to fit a float. *)
Definition fraction (z d : Z) : option (Z * Z) :=
  if decide (Z.abs z < 2 ^ 1024) then Some (z, d) else None.
Definition scale (z : Z) (q : Z * Z) : option (Z * Z) :=
  if decide (Z.abs z < 2 ^ 1024) then Some (z * q.1, q.2) else None.

(** A frame with a [str] salary and an [int] salary that overflows. *)
Definition overflowing : DataFrame (employee unit (Z * Z)) :=
  [(0, mkEmployee (PyInt 5000) () None None);
   (1, mkEmployee (PyInt (10 ^ 400)) () None None);
   (2, mkEmployee (PyStr "Tech") () None None);
   (3, mkEmployee (PyInt 3000) () None None)].
End Usage.

(** * Properties *)

(** ** Facts about the DataFrame operations *)

Section PandasFacts.
Context {Row : Type}.
Implicit Types (df : DataFrame Row) (l i : Z) (r : Row) (bad : gset Z).

Lemma len_reset_index df : len (reset_index df) = len df.
Proof. unfold len, reset_index. by rewrite length_imap. Qed.

Lemma len_zero df : len df = 0 ↔ df = [].
Proof. unfold len. destruct df; simpl; split; (done || lia). Qed.

Lemma range_indexed_reset_index df : range_indexed (reset_index df).
Proof.
  unfold range_indexed, index, reset_index, len.
  apply list_eq. intros n.
  rewrite list_lookup_fmap, list_lookup_imap, length_imap.
  destruct (df !! n) as [x|] eqn:E; simpl.
  - symmetry. apply lookup_seqZ. apply lookup_lt_Some in E. lia.
  - symmetry. apply lookup_seqZ_ge. apply lookup_ge_None in E. lia.
Qed.

Lemma range_indexed_lookup df n l r :
  range_indexed df → df !! n = Some (l, r) → l = Z.of_nat n.
Proof.
  unfold range_indexed, index. intros H E.
  assert (Hn : (df.*1) !! n = Some l) by (by rewrite list_lookup_fmap, E).
  rewrite H in Hn. apply lookup_seqZ in Hn. lia.
Qed.

Lemma reset_index_id df : range_indexed df → reset_index df = df.
Proof.
  intros H. unfold reset_index. apply list_eq. intros n.
  rewrite list_lookup_imap.
  destruct (df !! n) as [[l r]|] eqn:E; simpl; [|done].
  by rewrite (range_indexed_lookup _ _ _ _ H E).
Qed.

(** Under the default index, label and position agree: [iloc] at a
    label yields the row carrying that label. *)
Lemma iloc_range_indexed df l r :
  range_indexed df → (l, r) ∈ df → iloc df l = Some [(l, r)].
Proof.
  intros H [n E]%list_elem_of_lookup.
  pose proof (range_indexed_lookup _ _ _ _ H E) as ->.
  pose proof (lookup_lt_Some _ _ _ E) as Hn.
  unfold iloc, len. rewrite decide_True by lia.
  by rewrite Nat2Z.id, E.
Qed.

Lemma iloc_singleton df i tmp :
  iloc df i = Some tmp → ∃ x, tmp = [x] ∧ x ∈ df.
Proof.
  unfold iloc. intros H.
  repeat case_decide; try done.
  all: destruct (df !! _) as [x|] eqn:E; simpl in H; [|done].
  all: injection H as <-; exists x; split; [done|].
  all: by eapply list_elem_of_lookup_2.
Qed.

Lemma drop_index bad df :
  (∀ l, l ∈ bad → l ∈ index df) →
  drop bad df = Some (filter (λ x, x.1 ∉ bad) df).
Proof.
  intros H. unfold drop. rewrite decide_True; [done|].
  apply Forall_forall. intros l Hl. apply H. by apply elem_of_elements.
Qed.

Lemma drop_shrinks bad df df' :
  drop bad df = Some df' → bad ≠ ∅ → len df' < len df.
Proof.
  unfold drop. case_decide as HF; [|done]. intros [= <-] Hne.
  apply set_choose_L in Hne as [l Hl].
  rewrite Forall_forall in HF.
  assert (l ∈ index df) as Hi by (apply HF; by apply elem_of_elements).
  apply list_elem_of_fmap in Hi as ([l' r] & -> & Hin).
  unfold len. apply inj_lt.
  eapply (length_filter_lt _ _ (l', r)); [done|]. simpl. tauto.
Qed.
End PandasFacts.

(** ** Facts about traces *)

Section TraceFacts.
Context {Row : Type}.
Implicit Types (tr ps : list (event Row)).





Lemma probes_no_exclude ps bad (df df' : DataFrame Row) :
  Forall (λ ev, is_probe ev) ps → Exclude bad df df' ∉ ps.
Proof.
  intros HF Hin. rewrite Forall_forall in HF. by apply HF in Hin.
Qed.
End TraceFacts.

(** ** Facts about the executor *)

Section ExecutorFacts.
Context {Row Other Err : Type}.
Variable func : HostOp Row Other Err.
Variable df_in_globals : bool.
Variable df_name : string.
Implicit Types (df tmp : DataFrame Row) (w : World Row Other)
  (bad : gset Z) (tr ps : list (event Row)).

Local Abbreviation rebind' := (rebind df_in_globals df_name).
Local Abbreviation attempt' := (attempt func df_in_globals df_name).
Local Abbreviation probe_rows' := (probe_rows func df_in_globals df_name).
Local Abbreviation round' := (round func df_in_globals df_name).
Local Abbreviation loop' := (loop func df_in_globals df_name).
Local Abbreviation round_case' := (round_case func df_in_globals df_name).

Ltac run_monad :=
  unfold mbind, M_bind, bind, mret, M_ret, ret, raise, try_except, log, lift,
    call, set_target, get_global, adopt, copy in *; simpl in *.

(** *** One batch attempt *)

Lemma attempt_run df w :
  attempt' df w =
    match func (rebind' (VDataFrame df) w) with
    | (w1, Raise e) => (w1, [Batch df], inl e)
    | (w1, Return result) =>
        if df_in_globals then
          match ns_get df_name (globals w1) with
          | Some v => (w1, [Batch df], inr v)
          | None => (w1, [Batch df], inl KeyError)
          end
        else
          (w1, [Batch df],
           inr (match result with VNone => VDataFrame df | _ => result end))
    end.
Proof.
  unfold attempt. run_monad.
  destruct (func _) as [w1 [v|e]]; [|done].
  destruct df_in_globals; [|done]. run_monad.
  by destruct (ns_get _ _).
Qed.

(** *** The probing pass *)

Lemma probe_rows_cons df i idx bad w :
  probe_rows' df (i :: idx) bad w =
    match iloc df i with
    | None => (w, [], inl IndexError)
    | Some tmp =>
        let '(w1, o) := func (rebind' (VDataFrame tmp) w) in
        let '(w2, ps, r) :=
          probe_rows' df idx (if raises o then {[i]} ∪ bad else bad) w1 in
        (w2, Probe i tmp (raises o) :: ps, r)
    end.
Proof.
  simpl. run_monad. destruct (iloc df i) as [tmp|]; [|done]. simpl.
  destruct (func _) as [w1 [v|e]]; simpl;
    by destruct (probe_rows _ _ _ _ _ _ _) as [[w2 ps] r].
Qed.

(** What a probing pass over [idx] establishes. *)
Lemma probe_rows_spec df idx bad w w' ps r :
  probe_rows' df idx bad w = (w', ps, r) →
  Forall (λ ev, is_probe ev) ps ∧
  (∀ i tmp b, Probe i tmp b ∈ ps →
     i ∈ idx ∧ iloc df i = Some tmp ∧
     ∃ wi, raises (func (rebind' (VDataFrame tmp) wi)).2 = b) ∧
  match r with
  | inl e => e = IndexError
  | inr bad' =>
      (∀ l, l ∈ bad' ↔ l ∈ bad ∨ ∃ tmp, Probe l tmp true ∈ ps) ∧
      (∀ i, i ∈ idx → ∃ tmp b, Probe i tmp b ∈ ps)
  end.
Proof.
  revert bad w w' ps r. induction idx as [|i idx IH]; intros bad w w' ps r.
  - simpl. unfold mret, M_ret, ret. intros [= <- <- <-].
    split; [constructor|]. split; [intros ??? H; by apply elem_of_nil in H|].
    split; [|intros ? H; by apply elem_of_nil in H].
    intros l. split; [tauto|]. intros [?|[? H]]; [done|by apply elem_of_nil in H].
  - rewrite probe_rows_cons. destruct (iloc df i) as [tmp|] eqn:Ei.
    + destruct (func _) as [w1 o] eqn:Ef.
      destruct (probe_rows _ _ _ _ _ _ _) as [[w2 ps'] r'] eqn:Ep.
      intros [= <- <- <-]. apply IH in Ep as (HF & HP & Hr).
      split; [by constructor|]. split.
      * intros j tmp' b [[= -> -> ->]|Hin]%elem_of_cons.
        -- split; [left|]. split; [done|]. exists w. by rewrite Ef.
        -- destruct (HP _ _ _ Hin) as (? & ? & ?). split; [by right|done].
      * destruct r' as [e|bad']; [done|]. destruct Hr as [Hb Hall]. split.
        -- intros l. rewrite Hb. split.
           ++ intros [Hl|[t Ht]]; [|right; exists t; by right].
              destruct (raises o) eqn:Eo; [|by left].
              apply elem_of_union in Hl as [->%elem_of_singleton|]; [|by left].
              right. exists tmp. left.
           ++ intros [Hl|[t [[= -> -> Eo]|Ht]%elem_of_cons]].
              ** left. destruct (raises o); [|done]. apply elem_of_union. by right.
              ** left. rewrite <- Eo. apply elem_of_union. left.
                 by apply elem_of_singleton.
              ** right. by exists t.
        -- intros j [->|Hj]%elem_of_cons.
           ++ exists tmp, (raises o). left.
           ++ destruct (Hall _ Hj) as (t & b & ?). exists t, b. by right.
    + intros [= <- <- <-]. split; [constructor|].
      split; [intros ??? H; by apply elem_of_nil in H|done].
Qed.

(** The pass raises only when some label is not a valid position. *)
Lemma probe_rows_no_raise df idx bad w :
  (∀ i, i ∈ idx → is_Some (iloc df i)) →
  ∃ w' ps bad', probe_rows' df idx bad w = (w', ps, inr bad').
Proof.
  revert bad w. induction idx as [|i idx IH]; intros bad w Hi.
  - by eexists _, _, _.
  - rewrite probe_rows_cons.
    destruct (Hi i) as [tmp ->]; [left|].
    destruct (func _) as [w1 o].
    edestruct (IH (if raises o then {[i]} ∪ bad else bad) w1)
      as (w' & ps & bad' & ->); [intros; apply Hi; by right|].
    by eexists _, _, _.
Qed.

(** *** One round *)

Lemma round_run df w :
  round' df w =
    match attempt' df w with
    | (w1, t1, inr v) => (w1, t1, inr (Break v))
    | (w1, t1, inl _) =>
        match probe_rows' df (index df) ∅ w1 with
        | (w2, ps, inl e) => (w2, t1 ++ ps, inl e)
        | (w2, ps, inr bad) =>
            if decide (bad = ∅)
            then (w2, t1 ++ ps, inr (Break (VDataFrame df)))
            else
              match drop bad df with
              | None => (w2, t1 ++ ps, inl KeyError)
              | Some dropped =>
                  let df' := reset_index dropped in
                  let tr := t1 ++ ps ++ [Exclude bad df df'] in
                  if decide (len df' = 0) then
                    (if df_in_globals then rebind' (VDataFrame df') w2 else w2,
                     tr, inr ReturnNone)
                  else (w2, tr, inr (Continue df'))
              end
        end
    end.
Proof.
  unfold round. unfold try_except at 1. unfold mbind at 1, M_bind at 1.
  unfold bind at 1.
  destruct (attempt' df w) as [[w1 t1] [e|v]]; simpl;
    [|unfold ret; by rewrite app_nil_r].
  unfold mbind at 1, M_bind at 1, bind at 1.
  destruct (probe_rows _ _ _ _ _ _ _) as [[w2 ps] [e'|bad]]; [done|].
  case_decide; [unfold ret; by rewrite app_nil_r|].
  run_monad. destruct (drop bad df) as [dropped|]; simpl;
    [|by rewrite app_nil_r].
  case_decide; [|done]. by destruct df_in_globals.
Qed.

Lemma attempt_cases df w :
  ∃ w1 r, attempt' df w = (w1, [Batch df], r).
Proof.
  rewrite attempt_run. destruct (func _) as [w1 [v|e]]; [|by eexists _, _].
  destruct df_in_globals; [|by eexists _, _].
  destruct (ns_get _ _); by eexists _, _.
Qed.

Lemma round_inv df w : round_case' df w (round' df w).
Proof.
  rewrite round_run.
  destruct (attempt_cases df w) as (w1 & [e|v] & Ea); rewrite Ea;
    [|by constructor].
  destruct (probe_rows' df (index df) ∅ w1) as [[w2 ps] r] eqn:Ep.
  pose proof (probe_rows_spec _ _ _ _ _ _ _ Ep) as (_ & HP & Hr).
  destruct r as [e'|bad]; [subst e'; by econstructor|].
  destruct Hr as [Hbad _].
  case_decide as Hne; [subst bad; by econstructor|].
  rewrite drop_index.
  - simpl. by eapply round_exclude.
  - intros l [Hl|[tmp Hl]]%Hbad; [by apply not_elem_of_empty in Hl|].
    by apply HP in Hl as [? _].
Qed.


Lemma round_continue df w w' tr df' :
  round' df w = (w', tr, inr (Continue df')) →
  len df' < len df ∧ len df' ≠ 0 ∧ range_indexed df'.
Proof.
  intros E. pose proof (round_inv df w) as H. rewrite E in H.
  inversion H as [| | | w1 e w2 ps bad d' Ea Ep Hne Hd Hc]; subst.
  case_decide; [done|]. injection Hc as <- <- <-.
  split; [|split; [done|apply range_indexed_reset_index]].
  rewrite len_reset_index. eapply drop_shrinks; [|done].
  apply drop_index. apply probe_rows_spec in Ep as (_ & HP & Hb & _).
  intros l [Hl|[tmp Hl]]%Hb; [by apply not_elem_of_empty in Hl|].
  by apply HP in Hl as [? _].
Qed.

(** *** The loop *)


(** More fuel does not change the result. *)
Lemma loop_more_fuel fuel k last_len df w res :
  loop' fuel last_len df w = Some res →
  loop' (fuel + k) last_len df w = Some res.
Proof.
  revert last_len df w res. induction fuel as [|fuel IH];
    intros last df w res; [done|].
  simpl. case_decide; [done|].
  destruct (round' df w) as [[w1 t1] [e|[df'| |]]]; try done.
  destruct (loop' fuel (len df) df' w1) as [res'|] eqn:El; [|done].
  by rewrite (IH _ _ _ _ El).
Qed.

End ExecutorFacts.

(** ** The decorated call *)

Section WrapperFacts.
Context {Row Other Err : Type}.
Variable func : HostOp Row Other Err.
Implicit Types (df : DataFrame Row) (w : World Row Other).

Lemma find_df_first (ns : namespace Row Other) name df :
  find_df ns = Some (name, df) →
  ∃ pre post, ns = pre ++ (name, VDataFrame df) :: post ∧
              ∀ k d, ¬ In (k, VDataFrame d) pre.
Proof.
  induction ns as [|[k v] ns IH]; simpl; [done|].
  destruct v as [|d|o].
  2:{ intros [= -> ->]. exists [], ns. split; [done|intros ?? []]. }
  all: intros (pre & post & -> & Hpre)%IH;
    eexists (_ :: pre), post; (split; [done|]);
    intros k' d' [Heq|Hin]; [discriminate Heq|by eapply Hpre].
Qed.

Lemma find_df_None (ns : namespace Row Other) :
  find_df ns = None ↔ ¬ ∃ name df, In (name, VDataFrame df) ns.
Proof.
  induction ns as [|[k v] ns IH]; simpl.
  - split; [intros _ (? & ? & [])|done].
  - destruct v as [|d|o].
    2:{ split; [done|]. intros H. destruct H. exists k, d. by left. }
    all: rewrite IH; split; intros H (n & d & Hin); apply H; exists n, d;
      [destruct Hin as [[=]|]; done|by right].
Qed.

Lemma PD_TOL_resolved w g name df :
  resolve w = Some (g, name, df) →
  PD_TOL func w = loop func g name (S (length df)) (-1) df w.
Proof. intros H. unfold PD_TOL, wrapper, enough. by rewrite H. Qed.

Lemma PD_TOL_direct w :
  resolve w = None →
  PD_TOL func w =
    Some ((func w).1, [Direct],
          match (func w).2 with Return v => inr v | Raise e => inl e end).
Proof.
  intros H. unfold PD_TOL, wrapper. rewrite H.
  unfold mbind, M_bind, bind, log, call. by destruct (func w) as [w' [v|e]].
Qed.

Lemma loop_S fuel last_len df w g name :
  loop func g name (S fuel) last_len df w =
    if decide (last_len = len df) then Some (w, [], inr (VDataFrame df))
    else
      match round func g name df w with
      | (w1, t1, inl e) => Some (w1, t1, inl e)
      | (w1, t1, inr (Break v)) => Some (w1, t1, inr v)
      | (w1, t1, inr ReturnNone) => Some (w1, t1, inr VNone)
      | (w1, t1, inr (Continue df')) =>
          match loop func g name fuel (len df) df' w1 with
          | Some (w2, t2, r) => Some (w2, t1 ++ t2, r)
          | None => None
          end
      end.
Proof. done. Qed.

Lemma loop_first fuel df w g name :
  loop func g name (S fuel) (-1) df w =
    match round func g name df w with
    | (w1, t1, inl e) => Some (w1, t1, inl e)
    | (w1, t1, inr (Break v)) => Some (w1, t1, inr v)
    | (w1, t1, inr ReturnNone) => Some (w1, t1, inr VNone)
    | (w1, t1, inr (Continue df')) =>
        match loop func g name fuel (len df) df' w1 with
        | Some (w2, t2, r) => Some (w2, t1 ++ t2, r)
        | None => None
        end
    end.
Proof. simpl. rewrite decide_False; [done|]. unfold len. lia. Qed.
End WrapperFacts.

(** ** Rounds on a collection with the default index *)

Section RoundFacts.
Context {Row Other Err : Type}.
Variable func : HostOp Row Other Err.
Variable g : bool.
Variable name : string.
Implicit Types (df : DataFrame Row) (w : World Row Other).

Lemma range_indexed_iloc df i :
  range_indexed df → i ∈ index df → is_Some (iloc df i).
Proof.
  intros H ([l r] & -> & Hin)%list_elem_of_fmap. simpl.
  rewrite (iloc_range_indexed df l r); done.
Qed.

Lemma probe_rows_length df idx bad w w' ps bad' :
  probe_rows func g name df idx bad w = (w', ps, inr bad') →
  length ps = length idx.
Proof.
  revert bad w ps. induction idx as [|i idx IH]; intros bad w ps.
  - simpl. unfold mret, M_ret, ret. by intros [= <- <- <-].
  - rewrite probe_rows_cons. destruct (iloc df i) as [tmp|]; [|done].
    destruct (func _) as [w1 o].
    destruct (probe_rows _ _ _ _ _ _ _) as [[w2 ps'] r'] eqn:Ep.
    intros [= <- <- ->]. simpl. f_equal. by eapply IH.
Qed.

(** The labels collected by a pass are those of rows whose own probe
    raised. *)
Lemma probe_rows_faulty df w w' ps bad x :
  range_indexed df →
  probe_rows func g name df (index df) ∅ w = (w', ps, inr bad) →
  x ∈ df → x.1 ∈ bad →
  Probe x.1 [x] true ∈ ps ∧
  ∃ wi, raises (func (rebind g name (VDataFrame [x]) wi)).2 = true.
Proof.
  intros Hri Ep Hx Hb. destruct x as [l r].
  apply probe_rows_spec in Ep as (_ & HP & Hbad & _).
  apply Hbad in Hb as [Hb|[tmp Ht]]; [by apply not_elem_of_empty in Hb|].
  destruct (HP _ _ _ Ht) as (_ & Hi & Hw). simpl in *.
  rewrite (iloc_range_indexed df l r) in Hi by done.
  injection Hi as <-. done.
Qed.

(** An exclusion recorded in a round's trace is the one of that round,
    and each excluded row has failed its own probe in that round. *)
Lemma round_exclusion df w w' tr c bad d d' :
  range_indexed df →
  round func g name df w = (w', tr, c) →
  Exclude bad d d' ∈ tr →
  d = df ∧ d' = reset_index (filter (λ x, x.1 ∉ bad) df) ∧
  ∃ ps, tr = Batch df :: ps ++ [Exclude bad df d'] ∧
        Forall (λ ev, is_probe ev) ps ∧
        ∀ x, x ∈ df → x.1 ∈ bad →
             Probe x.1 [x] true ∈ ps ∧
             ∃ wi, raises (func (rebind g name (VDataFrame [x]) wi)).2 = true.
Proof.
  intros Hri E Hin. pose proof (round_inv func g name df w) as H.
  rewrite E in H.
  inversion H as [ | ????? Ep | ????? Ep | w1 e w2 ps b df1 Ea Ep Hne Hd Hc];
    subst.
  - apply elem_of_cons in Hin as [[=]|Hin]. by apply elem_of_nil in Hin.
  - apply probe_rows_spec in Ep as [HF _].
    apply elem_of_cons in Hin as [[=]|Hin]. by apply probes_no_exclude in Hin.
  - apply probe_rows_spec in Ep as [HF _].
    apply elem_of_cons in Hin as [[=]|Hin]. by apply probes_no_exclude in Hin.
  - pose proof Ep as (HF & _)%probe_rows_spec.
    assert (tr = Batch df :: ps ++
              [Exclude b df (reset_index (filter (λ x, x.1 ∉ b) df))])
      as -> by (case_decide; congruence).
    apply elem_of_cons in Hin as [[=]|Hin].
    apply elem_of_app in Hin as [Hin|Hin];
      [by apply probes_no_exclude in Hin|].
    apply list_elem_of_singleton in Hin. injection Hin as -> -> ->.
    split; [done|]. split; [done|]. exists ps. split; [done|].
    split; [done|]. intros x Hx Hb. by eapply probe_rows_faulty.
Qed.
End RoundFacts.

(** ** Two facts about [filter] *)

Section FilterFacts.
Context {A : Type} (P Q : A → Prop).
Context `{!∀ x, Decision (P x)} `{!∀ x, Decision (Q x)}.

Lemma filter_ext_in (l : list A) :
  (∀ x, x ∈ l → P x ↔ Q x) → filter P l = filter Q l.
Proof.
  induction l as [|a l IH]; intros Hpq; [done|].
  rewrite !filter_cons. rewrite IH by (intros; apply Hpq; by right).
  assert (P a ↔ Q a) as Ha by (apply Hpq; left).
  destruct (decide (P a)), (decide (Q a)); tauto || done.
Qed.

Lemma filter_all (l : list A) : (∀ x, x ∈ l → P x) → filter P l = l.
Proof.
  induction l as [|a l IH]; intros Hp; [done|].
  rewrite filter_cons_True by (apply Hp; left).
  f_equal. apply IH. intros. apply Hp. by right.
Qed.
Lemma filter_none (l : list A) : (∀ x, x ∈ l → ¬ P x) → filter P l = [].
Proof.
  induction l as [|a l IH]; intros Hp; [done|].
  rewrite filter_cons_False by (apply Hp; left).
  apply IH. intros. apply Hp. by right.
Qed.
End FilterFacts.

(** ** A collection whose rows all fail *)

Section Exhaustion.
Context {Row Other Err : Type}.
Variable func : HostOp Row Other Err.
Variable g : bool.
Variable name : string.
Implicit Types (df : DataFrame Row) (w : World Row Other).

(** When the batch call raises and every row raises alone, the round
    drops all rows and the loop ends by the bare [return] of line 73:
    the result is [None], after the external name, if that is the
    target, has been bound to the empty frame. *)
Lemma loop_exhaustion fuel last_len df w w1 e :
  range_indexed df →
  df ≠ [] →
  last_len ≠ len df →
  func (rebind g name (VDataFrame df) w) = (w1, Raise e) →
  (∀ x wi, x ∈ df →
     raises (func (rebind g name (VDataFrame [x]) wi)).2 = true) →
  ∃ w2 ps bad,
    loop func g name (S fuel) last_len df w =
      Some (if g then rebind g name (VDataFrame []) w2 else w2,
            Batch df :: ps ++ [Exclude bad df []], inr VNone).
Proof.
  intros Hri Hdf Hlast Hf Hs. simpl. rewrite decide_False by done.
  rewrite round_run, attempt_run. unfold copy. rewrite Hf.
  destruct (probe_rows_no_raise func g name df (index df) ∅ w1)
    as (w2 & ps & bad & Ep); [intros; by apply range_indexed_iloc|].
  rewrite Ep. exists w2, ps, bad.
  assert (∀ x, x ∈ df → x.1 ∈ bad) as Hall.
  { intros [l r] Hx. simpl.
    pose proof Ep as (_ & HP & Hbad & Hidx)%probe_rows_spec.
    destruct (Hidx l) as (tmp & b & Ht).
    { apply list_elem_of_fmap. by exists (l, r). }
    apply Hbad. right. exists tmp.
    destruct (HP _ _ _ Ht) as (_ & Hi & wi & Hw).
    rewrite (iloc_range_indexed df l r) in Hi by done. injection Hi as <-.
    rewrite Hs in Hw by done. by subst b. }
  assert (drop bad df = Some []) as Hd.
  { rewrite drop_index.
    - f_equal. apply filter_none. intros x Hx Hn. by apply Hn, Hall.
    - apply probe_rows_spec in Ep as (_ & HP & Hb & _).
      intros l [Hl|[tmp Hl]]%Hb; [by apply not_elem_of_empty in Hl|].
      by apply HP in Hl as [? _]. }
  destruct (decide (bad = ∅)) as [->|Hne].
  - destruct df as [|x df]; [done|].
    exfalso. apply (not_elem_of_empty (C:=gset Z) x.1), Hall. left.
  - rewrite Hd. by destruct g.
Qed.
End Exhaustion.

(** ** Operations that fail row by row *)

Section PerRecord.
Context {Row Other Err : Type}.
Variable func : HostOp Row Other Err.
Variable g : bool.
Variable name : string.
Variable faulty : Row → bool.
Implicit Types (df : DataFrame Row) (w : World Row Other).

(** A call raises exactly when the bound collection holds a faulty
    row, in whatever world it is made. *)
Hypothesis fails_per_record : ∀ df wi,
  raises (func (rebind g name (VDataFrame df) wi)).2 = true ↔
  ∃ x, x ∈ df ∧ faulty x.2 = true.
(** With an external target, a call made with the name bound to a
    collection leaves the name bound. *)
Hypothesis keeps_binding :
  g = true → ∀ df wi,
    is_Some (ns_get name
               (globals (func (rebind g name (VDataFrame df) wi)).1)).

Lemma reset_index_rows df x :
  x ∈ reset_index df → ∃ y, y ∈ df ∧ y.2 = x.2.
Proof.
  unfold reset_index. intros [i Hi]%list_elem_of_lookup.
  rewrite list_lookup_imap in Hi.
  destruct (df !! i) as [y|] eqn:E; [|done]. injection Hi as <-.
  exists y. split; [by eapply list_elem_of_lookup_2|done].
Qed.


Lemma attempt_faulty df w x :
  x ∈ df → faulty x.2 = true →
  ∃ w1 e, attempt func g name df w = (w1, [Batch df], inl e).
Proof.
  intros Hx Hfx. rewrite attempt_run.
  pose proof (fails_per_record df w) as [_ Hf].
  destruct (func (rebind g name (VDataFrame df) w)) as [w' [v|e]].
  - simpl in Hf. discriminate Hf. by exists x.
  - by exists w', e.
Qed.

(** On the default index, the probing pass collects exactly the labels
    of the faulty rows. *)
Lemma probe_rows_per_record df w :
  range_indexed df →
  ∃ w2 ps bad,
    probe_rows func g name df (index df) ∅ w = (w2, ps, inr bad) ∧
    ∀ x, x ∈ df → x.1 ∈ bad ↔ faulty x.2 = true.
Proof.
  intros Hri.
  destruct (probe_rows_no_raise func g name df (index df) ∅ w)
    as (w2 & ps & bad & Ep); [intros; by apply range_indexed_iloc|].
  exists w2, ps, bad. split; [done|]. intros [l r] Hx. simpl. split.
  - intros Hb.
    destruct (probe_rows_faulty _ _ _ _ _ _ _ _ _ Hri Ep Hx Hb)
      as (_ & wi & Hw).
    apply fails_per_record in Hw as (y & ->%list_elem_of_singleton & Hy).
    done.
  - intros Hfx.
    pose proof Ep as (_ & HP & Hbad & Hall)%probe_rows_spec.
    destruct (Hall l) as (tmp & b & Ht).
    { apply list_elem_of_fmap. by exists (l, r). }
    apply Hbad. right. exists tmp.
    destruct (HP _ _ _ Ht) as (_ & Hi & wi & Hw).
    rewrite (iloc_range_indexed df l r) in Hi by done. injection Hi as <-.
    assert (b = true) as ->; [|done].
    rewrite <- Hw. apply fails_per_record. exists (l, r).
    split; [by apply list_elem_of_singleton|done].
Qed.
End PerRecord.

(** ** Exclusions on a collection with the default index *)

Section DefaultIndex.
Context {Row Other Err : Type}.
Implicit Types (func : HostOp Row Other Err) (df : DataFrame Row)
  (w : World Row Other) (g : bool) (name : string).

(** On a collection with the default index 0..n-1, in every round of
    the loop: an exclusion removes exactly the rows whose label is in
    [bad_rows], it follows the batch attempt and the probes of the same
    round, and every row it removes was probed alone in that round and
    that call of the operation raised. *)
Theorem exclusion_needs_failed_probe func g name fuel last_len df0 w0 w' tr r :
  range_indexed df0 →
  loop func g name fuel last_len df0 w0 = Some (w', tr, r) →
  ∀ bad_rows df df', Exclude bad_rows df df' ∈ tr →
    df' = reset_index (filter (λ x, x.1 ∉ bad_rows) df) ∧
    ∃ pre ps post,
      tr = pre ++ Batch df :: ps ++ Exclude bad_rows df df' :: post ∧
      Forall (λ ev, is_probe ev) ps ∧
      ∀ x, x ∈ df → x.1 ∈ bad_rows →
        Probe x.1 [x] true ∈ ps ∧
        ∃ wi, raises (func (rebind g name (VDataFrame [x]) wi)).2 = true.
Proof.
  revert last_len df0 w0 w' tr r.
  induction fuel as [|fuel IH]; intros last df0 w0 w' tr r Hri; [done|].
  simpl. case_decide.
  { intros [= <- <- <-] ??? Hin. by apply elem_of_nil in Hin. }
  destruct (round func g name df0 w0) as [[w1 t1] c] eqn:Er.
  assert (∀ bad df df', Exclude bad df df' ∈ t1 →
    df' = reset_index (filter (λ x, x.1 ∉ bad) df) ∧
    ∃ ps, t1 = Batch df :: ps ++ [Exclude bad df df'] ∧
      Forall (λ ev, is_probe ev) ps ∧
      ∀ x, x ∈ df → x.1 ∈ bad →
        Probe x.1 [x] true ∈ ps ∧
        ∃ wi, raises (func (rebind g name (VDataFrame [x]) wi)).2 = true)
    as Hround.
  { intros bad df df' Hin.
    destruct (round_exclusion _ _ _ _ _ _ _ _ _ _ _ Hri Er Hin)
      as (-> & Hd & ps & ? & ? & ?). split; [done|]. by exists ps. }
  assert (∀ bad df df', Exclude bad df df' ∈ t1 →
    df' = reset_index (filter (λ x, x.1 ∉ bad) df) ∧
    ∃ pre ps post, t1 = pre ++ Batch df :: ps ++ Exclude bad df df' :: post ∧
      Forall (λ ev, is_probe ev) ps ∧
      ∀ x, x ∈ df → x.1 ∈ bad →
        Probe x.1 [x] true ∈ ps ∧
        ∃ wi, raises (func (rebind g name (VDataFrame [x]) wi)).2 = true)
    as Hlast.
  { intros bad df df' Hin.
    destruct (Hround _ _ _ Hin) as (Hd & ps & -> & ? & ?).
    split; [done|]. by exists [], ps, []. }
  destruct c as [e|[df1|v|]]; try (intros [= <- <- <-]; exact Hlast).
  destruct (loop func g name fuel (len df0) df1 w1) as [[[w2 t2] r2]|] eqn:El;
    [|done].
  intros [= <- <- <-] bad df df' [Hin|Hin]%elem_of_app.
  - destruct (Hround _ _ _ Hin) as (Hd & ps & -> & ? & ?).
    split; [done|]. exists [], ps, t2. split; [|done].
    simpl. by rewrite <- app_assoc.
  - apply round_continue in Er as (_ & _ & Hri1).
    destruct (IH _ _ _ _ _ _ Hri1 El _ _ _ Hin)
      as (Hd & pre & ps & post & -> & ? & ?).
    split; [done|]. exists (t1 ++ pre), ps, post. split; [|done].
    by rewrite <- app_assoc.
Qed.
End DefaultIndex.

(** ** The store of DataFrame objects *)

Section ObjectFacts.
Context {Row Other Err : Type}.
Implicit Types (m : Objects.Mem Row Other) (df : DataFrame Row)
  (b : Objects.bindings Other).

Lemma lookup_bind_name name (v : Objects.pyvalue Other) b :
  Objects.lookup_name name (Objects.bind_name name v b) = Some v.
Proof.
  induction b as [|[k x] b IH]; simpl.
  - by rewrite decide_True.
  - case_decide; simpl; [by rewrite decide_True|by rewrite decide_False].
Qed.

Lemma deref_new_old df m l :
  (l < length (Objects.frames m))%nat →
  Objects.deref (Objects.new df m).2 l = Objects.deref m l.
Proof.
  intros Hl. unfold Objects.deref, Objects.new. simpl.
  by rewrite lookup_app_l.
Qed.

Lemma deref_new df m :
  Objects.deref (Objects.new df m).2 (Objects.new df m).1 = df.
Proof.
  unfold Objects.deref, Objects.new. simpl.
  by rewrite lookup_app_r, Nat.sub_diag.
Qed.
End ObjectFacts.

(** * The claims of the specification *)

Section Claims.
Context {Row Other Err : Type}.
Implicit Types (func : HostOp Row Other Err) (df : DataFrame Row)
  (w : World Row Other) (g : bool) (name : string).

(** C1 (as the code has it).  On a collection with the default index:
    when the call on the whole collection raises and no row raises
    when the operation is called on it alone, the loop ends in that
    round WITHOUT raising: it probes every row, excludes nothing, and
    returns the collection it started the round with.  The exception
    [e] of the batch call does not reach the caller. *)
Theorem irreproducible_failure func g name fuel last_len df w w1 e :
  range_indexed df →
  last_len ≠ len df →
  func (rebind g name (VDataFrame df) w) = (w1, Raise e) →
  (∀ x wi, x ∈ df →
     raises (func (rebind g name (VDataFrame [x]) wi)).2 = false) →
  ∃ w2 ps,
    loop func g name (S fuel) last_len df w =
      Some (w2, Batch df :: ps, inr (VDataFrame df)) ∧
    Forall (λ ev, is_probe ev) ps ∧ length ps = length df.
Proof.
  intros Hri Hl Hf Hs. simpl. rewrite decide_False by done.
  rewrite round_run, attempt_run. unfold copy. rewrite Hf.
  destruct (probe_rows_no_raise func g name df (index df) ∅ w1)
    as (w2 & ps & bad & Ep); [intros; by apply range_indexed_iloc|].
  rewrite Ep. exists w2, ps.
  assert (bad = ∅) as ->.
  { apply set_eq. intros l. split; [|by intros ?%not_elem_of_empty].
    intros Hb. exfalso.
    pose proof Ep as (_ & HP & Hbad & _)%probe_rows_spec.
    apply Hbad in Hb as [Hb|[tmp Ht]]; [by apply not_elem_of_empty in Hb|].
    destruct (HP _ _ _ Ht) as (_ & (x & -> & Hx)%iloc_singleton & wi & Hw).
    by rewrite Hs in Hw. }
  rewrite decide_True by done. split; [done|].
  split; [by apply probe_rows_spec in Ep as [? _]|].
  apply probe_rows_length in Ep. rewrite Ep. unfold index.
  by rewrite length_fmap.
Qed.


(** C5 (as the code has it).  Let the operation return on the first
    attempt.  With an argument-bound target it has then been called
    exactly once, nothing was probed, and the decorated call returns
    the operation's result unless that is [None], in which case it
    returns the collection as passed.  With an external target the
    same holds when the external name is still bound after the call,
    and the decorated call returns what the name is bound to; when
    the operation has left the name unbound, reading it back (line
    42) raises [KeyError] inside the [try] and the attempt counts as
    failed, so that the rows are probed. *)
Theorem first_attempt_success func w g name df w1 v :
  resolve w = Some (g, name, df) →
  func (rebind g name (VDataFrame df) w) = (w1, Return v) →
  (g = false →
   PD_TOL func w =
     Some (w1, [Batch df],
           inr (match v with VNone => VDataFrame df | _ => v end))) ∧
  (g = true → ∀ x, ns_get name (globals w1) = Some x →
   PD_TOL func w = Some (w1, [Batch df], inr x)) ∧
  (g = true → ns_get name (globals w1) = None →
   attempt func g name df w = (w1, [Batch df], inl KeyError) ∧
   ∀ w' tr r, PD_TOL func w = Some (w', tr, r) →
     ∃ w2 ps r',
       probe_rows func g name df (index df) ∅ w1 = (w2, ps, r') ∧
       ∃ tr', tr = Batch df :: ps ++ tr') ∧
  host_calls [Batch df] = 1%nat ∧ probes [Batch df] = 0%nat.
Proof.
  intros Hr Hf.
  rewrite (PD_TOL_resolved _ _ _ _ _ Hr), loop_first, round_run, attempt_run.
  unfold copy. rewrite Hf.
  split; [intros ->; done|]. split; [intros -> x Hx; by rewrite Hx|].
  split; [|done].
  intros -> Hn. rewrite Hn. split; [done|].
  intros w' tr r.
  destruct (probe_rows func true name df (index df) ∅ w1)
    as [[w2 ps] [e|bad]] eqn:Ep.
  - intros [= <- <- <-]. exists w2, ps, (inl e). split; [done|].
    exists []. by rewrite app_nil_r.
  - intros E. exists w2, ps, (inr bad). split; [done|].
    case_decide.
    + injection E as <- <- <-. exists []. by rewrite app_nil_r.
    + destruct (drop bad df) as [dropped|]; simpl in E.
      * case_decide.
        -- injection E as <- <- <-. by eexists.
        -- destruct (loop func true name (length df) (len df) _ w2)
             as [[[w3 t3] r3]|]; [|done].
           injection E as <- <- <-. eexists.
           by rewrite <- app_assoc.
      * injection E as <- <- <-. exists []. by rewrite app_nil_r.
Qed.



(** C9.  Target resolution takes the first DataFrame among the bound
    arguments when there is one, whatever the globals hold; otherwise
    the first DataFrame among the globals of the operation; and when
    neither holds a DataFrame the decorated call is one call of the
    operation on the unchanged world, whose outcome (value or
    exception) and effects are passed on as they are. *)
Theorem target_resolution func w :
  ((∃ name df, In (name, VDataFrame df) (arguments w)) →
   ∃ name df pre post,
     resolve w = Some (false, name, df) ∧
     arguments w = pre ++ (name, VDataFrame df) :: post ∧
     ∀ k d, ¬ In (k, VDataFrame d) pre) ∧
  ((¬ ∃ name df, In (name, VDataFrame df) (arguments w)) →
   (∃ name df, In (name, VDataFrame df) (globals w)) →
   ∃ name df pre post,
     resolve w = Some (true, name, df) ∧
     globals w = pre ++ (name, VDataFrame df) :: post ∧
     ∀ k d, ¬ In (k, VDataFrame d) pre) ∧
  ((¬ ∃ name df, In (name, VDataFrame df) (arguments w)) →
   (¬ ∃ name df, In (name, VDataFrame df) (globals w)) →
   PD_TOL func w =
     Some ((func w).1, [Direct],
           match (func w).2 with Return v => inr v | Raise e => inl e end) ∧
   host_calls [Direct : event Row] = 1%nat).
Proof.
  unfold resolve. split; [|split].
  - intros Ha. destruct (find_df (arguments w)) as [[name df]|] eqn:E.
    + destruct (find_df_first _ _ _ E) as (pre & post & ? & ?).
      by exists name, df, pre, post.
    + by apply find_df_None in E.
  - intros Ha%find_df_None Hg. rewrite Ha.
    destruct (find_df (globals w)) as [[name df]|] eqn:E.
    + destruct (find_df_first _ _ _ E) as (pre & post & ? & ?).
      by exists name, df, pre, post.
    + by apply find_df_None in E.
  - intros Ha%find_df_None Hg%find_df_None. split; [|done].
    apply PD_TOL_direct. unfold resolve. by rewrite Ha, Hg.
Qed.

(** C10 (as the code has it).  With an argument-bound target: when
    the call of a round returns [None], the loop ends and returns the
    object [df] names, which is not the copy the operation was given,
    whatever the operation did.  When the operation changes no object
    but the one bound to the target parameter, that object holds what
    it held before the attempt. *)
Theorem none_result_keeps_collection
    (func : Objects.HostFn Row Other Err) name b fuel last_len l m m2 :
  (l < length (Objects.frames m))%nat →
  last_len ≠ len (Objects.deref m l) →
  Objects.call func name b (Objects.new (copy (Objects.deref m l)) m).1
    (Objects.new (copy (Objects.deref m l)) m).2
    = (m2, Objects.Returned Objects.PyNone) →
  Objects.loop func name b (S fuel) last_len l m
    = Some (m2, inr (Objects.PyFrame l)) ∧
  (Objects.new (copy (Objects.deref m l)) m).1 ≠ l ∧
  (Objects.mutates_only func name →
   Objects.deref m2 l = Objects.deref m l).
Proof.
  intros Hl Hlen Hc. split; [|split].
  - simpl. rewrite decide_False by done.
    unfold Objects.round.
    destruct (Objects.new (copy (Objects.deref m l)) m) as [c m1].
    simpl in Hc. by rewrite Hc.
  - simpl. lia.
  - intros Hm. unfold Objects.call in Hc.
    specialize (Hm (Objects.bind_name name
                      (Objects.PyFrame
                         (Objects.new (copy (Objects.deref m l)) m).1) b)
                  (Objects.new (copy (Objects.deref m l)) m).2 l).
    rewrite Hc in Hm. simpl in Hm.
    unfold Objects.deref at 1. rewrite Hm.
    + unfold Objects.deref. by rewrite lookup_app_l.
    + rewrite length_app. simpl. lia.
    + rewrite lookup_bind_name. intros [= E]. lia.
Qed.
End Claims.

Import Examples Cases.

(** ** Facts about the example operations *)

Section ExampleFacts.
Implicit Types (df : DataFrame cell) (w : world).

Lemma ns_get_set {Row Other} name (v : value Row Other) ns :
  ns_get name (ns_set name v ns) = Some v.
Proof.
  induction ns as [|[k x] ns IH]; simpl.
  - by rewrite decide_True.
  - case_decide; simpl; [by rewrite decide_True|by rewrite decide_False].
Qed.

Lemma bound_frame_rebind g name df w :
  bound_frame g name (rebind g name (VDataFrame df) w) = Some df.
Proof. unfold bound_frame, rebind. destruct g; simpl; by rewrite ns_get_set. Qed.

Lemma column_None f df :
  column f df = None ↔ ∃ x, x ∈ df ∧ is_str x.2 = true.
Proof.
  unfold column. rewrite mapM_None, Exists_exists.
  split; intros ([l []] & Hx & H); try done; by exists (l, Str s).
Qed.

Lemma calculate_salary_fails_per_record df w :
  raises (calculate_salary_in_thousands (rebind false "df" (VDataFrame df) w)).2
    = true ↔ ∃ x, x ∈ df ∧ is_str x.2 = true.
Proof.
  unfold calculate_salary_in_thousands. rewrite bound_frame_rebind.
  rewrite <- (column_None (λ z, z / 1000)).
  by destruct (column _ df).
Qed.


Lemma reject_duplicates_single (x : Z * cell) w :
  raises (reject_duplicates (rebind false "df" (VDataFrame [x]) w)).2 = false.
Proof.
  unfold reject_duplicates. rewrite bound_frame_rebind.
  unfold has_duplicates. rewrite bool_decide_eq_false_2; [done|].
  intros H. apply H. apply NoDup_singleton.
Qed.
Lemma floor_in_place_mutates_only param :
  Objects.mutates_only (floor_in_place param) param.
Proof.
  intros b m l Hl Hb. unfold floor_in_place.
  destruct (Objects.lookup_name param b) as [[|l'|]|]; try done.
  destruct (column _ _); [|done]. simpl.
  apply list_lookup_insert_ne. by intros ->.
Qed.
End ExampleFacts.

(** * Closed instances *)
Section Closed.

(** Spec scenarios 1 to 3 on the embedding: one faulty row is dropped
    after one probing pass; three faulty rows are dropped together in
    one pass; a faultless frame costs one call and no probe. *)
Example scenario_1 :
  PD_TOL calculate_salary_in_thousands (call_with one_bad) =
    Some (one_bad_done, one_bad_trace,
          inr (VDataFrame (frame [Num 5; Num 8; Num 0; Num 0; Num 3]))).
Proof. by vm_compute. Qed.

Example scenario_2 :
  PD_TOL calculate_salary_in_thousands (call_with three_bad) =
    Some (call_with (frame [Num 5; Num 0; Num 3]), three_bad_trace,
          inr (VDataFrame (frame [Num 5; Num 0; Num 3]))) ∧
  rounds three_bad_trace = 2%nat ∧ host_calls three_bad_trace = 8%nat.
Proof. by vm_compute. Qed.

Example scenario_3 :
  PD_TOL calculate_salary_in_thousands (call_with all_good) =
    Some (call_with (frame [Num 5; Num 8; Num 0; Num 0; Num 2; Num 3]),
          [Batch all_good],
          inr (VDataFrame (frame [Num 5; Num 8; Num 0; Num 0; Num 2; Num 3]))).
Proof. by vm_compute. Qed.

(** C1, counterexample.  [reject_duplicates] raises [ValueError] on
    [two_equal] and on no single row of it; the decorated call does
    not raise: it returns [two_equal]. *)
Lemma batch_failure_not_surfaced :
  reject_duplicates (call_with two_equal) =
    (call_with two_equal, Raise (HostError "ValueError")) ∧
  (∀ x wi, x ∈ two_equal →
     raises (reject_duplicates (rebind false "df" (VDataFrame [x]) wi)).2
       = false) ∧
  PD_TOL reject_duplicates (call_with two_equal) =
    Some (call_with [(2, Num 5000)], two_equal_trace,
          inr (VDataFrame two_equal)) ∧
  ¬ ∃ w' tr e, PD_TOL reject_duplicates (call_with two_equal) =
                 Some (w', tr, inl e).
Proof.
  split; [by vm_compute|]. split; [intros; apply reject_duplicates_single|].
  split; [by vm_compute|]. intros (w' & tr & e & H). vm_compute in H.
  discriminate H.
Qed.

(** C1, an instance: the cross-row rule on [two_equal]. *)
Lemma irreproducible_failure_witness :
  range_indexed two_equal ∧ -1 ≠ len two_equal ∧
  reject_duplicates (rebind false "df" (VDataFrame two_equal)
                       (call_with two_equal)) =
    (call_with two_equal, Raise (HostError "ValueError")) ∧
  (∀ x wi, x ∈ two_equal →
     raises (reject_duplicates (rebind false "df" (VDataFrame [x]) wi)).2
       = false) ∧
  ∃ w2 ps,
    loop reject_duplicates false "df" 4 (-1) two_equal (call_with two_equal)
      = Some (w2, Batch two_equal :: ps, inr (VDataFrame two_equal)) ∧
    Forall (λ ev, is_probe ev) ps ∧ length ps = length two_equal.
Proof.
  split; [reflexivity|]. split; [done|]. split; [reflexivity|].
  split; [intros; apply reject_duplicates_single|].
  apply (irreproducible_failure reject_duplicates false "df" 3 (-1) two_equal
           (call_with two_equal) (call_with two_equal)
           (HostError "ValueError")).
  - reflexivity.
  - done.
  - reflexivity.
  - intros. apply reject_duplicates_single.
Defined.

(** C2, the failing input.  Every row of [all_bad] fails alone.  With
    the frame passed as argument the decorated call returns [None],
    not an empty frame; with the frame in the global [df_global] the
    global is bound to the empty frame and the call returns [None]. *)
Theorem exhaustion_returns_none :
  PD_TOL calculate_salary_in_thousands (call_with all_bad) =
    Some (call_with [(5, Str "f")], all_bad_trace, inr VNone) ∧
  PD_TOL modify_global_dataframe (call_global all_bad) =
    Some (call_global [], all_bad_trace, inr VNone).
Proof. split; by vm_compute. Qed.


(** C4, the failing input.  [raise_then_check_global] fails on
    [two_equal] as a whole and on none of its rows.  The failed batch
    attempt leaves [df_global] bound to the copy with the raise
    already applied; the decorated call then returns [two_equal]
    without excluding anything, and leaves [df_global] bound to the
    one-row frame of the last probe. *)
Theorem external_binding_left_behind :
  (attempt raise_then_check_global true "df_global" two_equal
     (call_global two_equal)).1.1 =
    call_global (frame [Num 5250; Num 8400; Num 5250]) ∧
  PD_TOL raise_then_check_global (call_global two_equal) =
    Some (call_global [(2, Num 5250)], two_equal_trace,
          inr (VDataFrame two_equal)).
Proof. split; by vm_compute. Qed.

(** C5, counterexample.  [scale_salary_in_place] succeeds on
    [all_good] and returns [None]; the decorated call returns the
    frame.  [forget_global] returns on the first attempt too, and
    leaves [df_global] unbound: the decorated call then probes all six
    rows. *)
Lemma none_result_not_returned :
  (scale_salary_in_place (call_with all_good)).2 = Return VNone ∧
  PD_TOL scale_salary_in_place (call_with all_good) =
    Some (call_with (frame [Num 5; Num 8; Num 0; Num 0; Num 2; Num 3]),
          [Batch all_good], inr (VDataFrame all_good)) ∧
  (¬ ∃ w' tr, PD_TOL scale_salary_in_place (call_with all_good) =
                Some (w', tr, inr VNone)) ∧
  (forget_global (call_global all_good)).2 = Return VNone ∧
  ∃ w' tr,
    PD_TOL forget_global (call_global all_good) =
      Some (w', tr, inr (VDataFrame all_good)) ∧
    host_calls tr = 7%nat ∧ probes tr = 6%nat.
Proof.
  split; [by vm_compute|]. split; [by vm_compute|]. split.
  { intros (w' & tr & H). vm_compute in H. discriminate H. }
  split; [by vm_compute|]. by vm_compute; eexists _, _.
Qed.

(** C5, instances: scenario 3 with the frame as argument and as
    global. *)
Lemma first_attempt_success_witness :
  resolve (call_with all_good) = Some (false, "df", all_good) ∧
  PD_TOL calculate_salary_in_thousands (call_with all_good) =
    Some (call_with (frame [Num 5; Num 8; Num 0; Num 0; Num 2; Num 3]),
          [Batch all_good],
          inr (VDataFrame (frame [Num 5; Num 8; Num 0; Num 0; Num 2; Num 3])))
  ∧
  resolve (call_global all_good) = Some (true, "df_global", all_good) ∧
  PD_TOL modify_global_dataframe (call_global all_good) =
    Some (call_global (frame [Num 5250; Num 8400; Num 129; Num 130;
                              Num 2100; Num 3150]),
          [Batch all_good],
          inr (VDataFrame (frame [Num 5250; Num 8400; Num 129; Num 130;
                                  Num 2100; Num 3150]))).
Proof.
  split; [reflexivity|]. split.
  - refine (proj1 (first_attempt_success calculate_salary_in_thousands
             (call_with all_good) false "df" all_good
             (call_with (frame [Num 5; Num 8; Num 0; Num 0; Num 2; Num 3]))
             (VDataFrame (frame [Num 5; Num 8; Num 0; Num 0; Num 2; Num 3]))
             _ _) eq_refl); reflexivity.
  - split; [reflexivity|].
    refine (proj1 (proj2 (first_attempt_success modify_global_dataframe
             (call_global all_good) true "df_global" all_good
             (call_global (frame [Num 5250; Num 8400; Num 129; Num 130;
                                  Num 2100; Num 3150])) VNone _ _))
             eq_refl _ _); reflexivity.
Defined.

(** An instance: the run of scenario 1 excludes row 4 only, whose
    probe raised. *)
Lemma exclusion_in_scenario_1 :
  range_indexed one_bad ∧
  loop calculate_salary_in_thousands false "df" 7 (-1) one_bad
    (call_with one_bad) =
    Some (one_bad_done, one_bad_trace,
          inr (VDataFrame (frame [Num 5; Num 8; Num 0; Num 0; Num 3]))) ∧
  Exclude {[4]} one_bad one_bad_kept ∈ one_bad_trace ∧
  one_bad_kept = reset_index (filter (λ x, x.1 ∉ ({[4]} : gset Z)) one_bad) ∧
  ∃ pre ps post,
    one_bad_trace =
      pre ++ Batch one_bad :: ps ++ Exclude {[4]} one_bad one_bad_kept :: post ∧
    Forall (λ ev, is_probe ev) ps ∧
    ∀ x, x ∈ one_bad → x.1 ∈ ({[4]} : gset Z) →
      Probe x.1 [x] true ∈ ps ∧
      ∃ wi, raises (calculate_salary_in_thousands
                      (rebind false "df" (VDataFrame [x]) wi)).2 = true.
Proof.
  assert (Exclude {[4]} one_bad one_bad_kept ∈ one_bad_trace) as Hin.
  { apply list_elem_of_In. vm_compute. do 7 right. by left. }
  split; [reflexivity|]. split; [by vm_compute|]. split; [exact Hin|].
  apply (exclusion_needs_failed_probe calculate_salary_in_thousands false "df"
           7 (-1) one_bad (call_with one_bad) one_bad_done one_bad_trace
           (inr (VDataFrame (frame [Num 5; Num 8; Num 0; Num 0; Num 3])))).
  - reflexivity.
  - by vm_compute.
  - exact Hin.
Defined.


(** C9, instances of the three cases. *)
Lemma target_resolution_witness :
  (∃ name df pre post,
     resolve call_mixed = Some (false, name, df) ∧
     arguments call_mixed = pre ++ (name, VDataFrame df) :: post ∧
     ∀ k d, ¬ In (k, VDataFrame d) pre) ∧
  (∃ name df pre post,
     resolve (call_global all_good) = Some (true, name, df) ∧
     globals (call_global all_good) = pre ++ (name, VDataFrame df) :: post ∧
     ∀ k d, ¬ In (k, VDataFrame d) pre) ∧
  PD_TOL add_one (mkWorld [("x", VOther 1)] [("y", VOther 7)]) =
    Some (mkWorld [("x", VOther 1)] [("y", VOther 7)], [Direct],
          inr (VOther 2)).
Proof.
  split; [|split].
  - apply (proj1 (target_resolution add_one call_mixed)).
    exists "df", one_bad. right. by left.
  - apply (proj1 (proj2 (target_resolution add_one (call_global all_good)))).
    + intros (name & df & []).
    + exists "df_global", all_good. right. by left.
  - apply (proj2 (proj2 (target_resolution add_one
             (mkWorld [("x", VOther 1)] [("y", VOther 7)])))).
    + intros (name & df & [[=]|[]]).
    + intros (name & df & [[=]|[]]).
Defined.

(** C10, an instance: [f(df)] with [f] changing its argument in place
    and returning nothing.  The copy (object 1) is changed, the loop
    returns the caller's frame (object 0), which holds what it held. *)
Lemma none_result_keeps_collection_witness :
  (0 < length (Objects.frames caller_frame))%nat ∧
  -1 ≠ len (Objects.deref caller_frame 0) ∧
  Objects.mutates_only (floor_in_place "df") "df" ∧
  Objects.loop (floor_in_place "df") "df" [("df", Objects.PyFrame 0)] 7 (-1)
      0 caller_frame = Some (copy_changed, inr (Objects.PyFrame 0)) ∧
  (Objects.new (copy (Objects.deref caller_frame 0)) caller_frame).1
    ≠ 0%nat ∧
  (Objects.mutates_only (floor_in_place "df") "df" →
   Objects.deref copy_changed 0 = Objects.deref caller_frame 0).
Proof.
  split; [simpl; lia|]. split; [done|].
  split; [apply floor_in_place_mutates_only|].
  apply (none_result_keeps_collection (floor_in_place "df") "df"
           [("df", Objects.PyFrame 0)] 6 (-1) 0 caller_frame copy_changed).
  - simpl. lia.
  - done.
  - reflexivity.
Defined.

(** C10, counterexample: [g(df, df)] with [g] changing its second
    argument in place and returning nothing.  The decorator replaces
    the first argument by a copy; the second still names the caller's
    frame, which the call changes.  The call returns [None], the loop
    returns the caller's frame, and that frame is not as it was before
    the attempt. *)
Lemma aliased_collection_is_changed :
  Objects.call (floor_in_place "other") "df"
      [("df", Objects.PyFrame 0); ("other", Objects.PyFrame 0)] 1
      (Objects.new (copy (Objects.deref caller_frame 0)) caller_frame).2 =
    (original_changed, Objects.Returned Objects.PyNone) ∧
  Objects.loop (floor_in_place "other") "df"
      [("df", Objects.PyFrame 0); ("other", Objects.PyFrame 0)] 7 (-1)
      0 caller_frame = Some (original_changed, inr (Objects.PyFrame 0)) ∧
  Objects.deref original_changed 0 ≠ Objects.deref caller_frame 0.
Proof.
  split; [reflexivity|]. split; [reflexivity|]. by vm_compute.
Qed.

(** C6, the failing input.  On [permuted] the labels are not the
    positions.  The probe made for label 1 is the call on the row at
    POSITION 1, the string row, and it raises; label 1 is then dropped,
    which is the row with salary 5000.  That row is excluded although
    it was probed alone once (for label 0) without failure, and the
    operation fails on it alone in no world.  The faulty row stays, and
    is dropped in the next round. *)
Theorem exclusion_by_label_not_position :
  ¬ range_indexed permuted ∧
  PD_TOL calculate_salary_in_thousands (call_with permuted) =
    Some (call_with [(0, Str "Tech")], permuted_trace, inr VNone) ∧
  filter (λ x, x.1 ∈ ({[1]} : gset Z)) permuted = [(1, Num 5000)] ∧
  filter (λ x, x.1 ∉ ({[1]} : gset Z)) permuted = [(0, Str "Tech")] ∧
  ∀ wi, raises (calculate_salary_in_thousands
                  (rebind false "df" (VDataFrame [(1, Num 5000)]) wi)).2
        = false.
Proof.
  split; [by vm_compute|]. split; [by vm_compute|].
  split; [by vm_compute|]. split; [by vm_compute|].
  intros wi.
  destruct (raises _) eqn:E; [|done].
  apply calculate_salary_fails_per_record in E as (x & Hx & Hs).
  apply list_elem_of_singleton in Hx as ->. done.
Qed.
End Closed.

(** * Further properties of the decorator *)

(** ** Which exceptions leave the loop *)

Section Escapes.
Context {Row Other Err : Type}.
Variable func : HostOp Row Other Err.
Variable g : bool.
Variable name : string.
Implicit Types (df : DataFrame Row) (w : World Row Other) (bad : gset Z).






End Escapes.

Section EscapeTheorems.
Context {Row Other Err : Type}.
Implicit Types (func : HostOp Row Other Err) (df : DataFrame Row)
  (w : World Row Other) (g : bool) (name : string).


End EscapeTheorems.

Section EscapeInstances.

End EscapeInstances.

(** ** What the operation is called on, and how often *)

Section Calls.
Context {Row Other Err : Type}.
Variable func : HostOp Row Other Err.
Variable g : bool.
Variable name : string.
Implicit Types (df : DataFrame Row) (w : World Row Other) (bad : gset Z)
  (tr ps : list (event Row)).






End Calls.

Section CallTheorems.
Context {Row Other Err : Type}.
Implicit Types (func : HostOp Row Other Err) (df : DataFrame Row)
  (w : World Row Other) (g : bool) (name : string).




(** X6.  The decorator writes only the namespace that holds its
    target: whatever holds of the other one (the globals for an
    argument-bound target, the bound arguments for an external one) and
    is kept by every call of the operation, still holds when the loop
    ends. *)
Theorem other_namespace_kept func g name (P : namespace Row Other → Prop)
    fuel last_len df w w' tr r :
  (∀ wi, P (if g then arguments wi else globals wi) →
         P (if g then arguments (func wi).1 else globals (func wi).1)) →
  P (if g then arguments w else globals w) →
  loop func g name fuel last_len df w = Some (w', tr, r) →
  P (if g then arguments w' else globals w').
Proof.
  intros Hfunc.
  assert (∀ v (wi : World Row Other),
                  (if g then arguments (rebind g name v wi)
                   else globals (rebind g name v wi)) =
                  (if g then arguments wi else globals wi)) as Hreb.
  { intros v wi. unfold rebind. by destruct g. }
  assert (∀ v (wi : World Row Other),
    P (if g then arguments wi else globals wi) →
    P (if g then arguments (func (rebind g name v wi)).1
       else globals (func (rebind g name v wi)).1)) as Hcall.
  { intros v wi Hp. apply Hfunc. by rewrite Hreb. }
  assert (∀ d idx bad (wi wo : World Row Other) ps res,
    probe_rows func g name d idx bad wi = (wo, ps, res) →
    P (if g then arguments wi else globals wi) →
    P (if g then arguments wo else globals wo)) as Hprobe.
  { intros d idx. induction idx as [|i idx IH]; intros bad wi wo ps res.
    - simpl. unfold mret, M_ret, ret. by intros [= <- <- <-].
    - rewrite probe_rows_cons. destruct (iloc d i) as [tmp|];
        [|by intros [= <- <- <-]].
      pose proof (Hcall (VDataFrame tmp) wi) as Hc.
      destruct (func _) as [w1 o].
      destruct (probe_rows _ _ _ _ _ _ _) as [[w2 ps'] r'] eqn:Ep.
      intros [= <- <- <-] Hp. eapply IH; [done|]. by apply Hc. }
  assert (∀ d (wi wo : World Row Other) t c,
    round func g name d wi = (wo, t, c) →
    P (if g then arguments wi else globals wi) →
    P (if g then arguments wo else globals wo)) as Hround.
  { intros d wi wo t c. rewrite round_run, attempt_run. unfold copy.
    pose proof (Hcall (VDataFrame d) wi) as Hc.
    destruct (func _) as [w1 [v|e]]; intros E Hp; specialize (Hc Hp);
      simpl in Hc.
    - destruct g.
      + destruct (ns_get name (globals w1)); [by injection E as <- <- <-|].
        destruct (probe_rows _ _ _ _ _ _ _) as [[w2 ps] [e'|bad]] eqn:Ep;
          pose proof (Hprobe _ _ _ _ _ _ _ Ep Hc) as Hp2;
          [by injection E as <- <- <-|].
        case_decide; [by injection E as <- <- <-|].
        destruct (drop bad d); [|by injection E as <- <- <-].
        simpl in E. case_decide; injection E as <- <- <-; [|done].
        simpl in *. done.
      + by injection E as <- <- <-.
    - destruct (probe_rows _ _ _ _ _ _ _) as [[w2 ps] [e'|bad]] eqn:Ep;
        pose proof (Hprobe _ _ _ _ _ _ _ Ep Hc) as Hp2;
        [by injection E as <- <- <-|].
      case_decide; [by injection E as <- <- <-|].
      destruct (drop bad d); [|by injection E as <- <- <-].
      simpl in E. case_decide; injection E as <- <- <-; [|done].
      destruct g; simpl in *; done. }
  revert last_len df w w' tr r. induction fuel as [|fuel IH];
    intros last df w w' tr r Hp; [done|].
  simpl. case_decide; [by intros [= <- <- <-]|].
  destruct (round func g name df w) as [[w1 t1] c] eqn:Er.
  pose proof (Hround _ _ _ _ _ Er Hp) as Hp1.
  destruct c as [e|[df1|v|]]; try (by intros [= <- <- <-]).
  destruct (loop func g name fuel (len df) df1 w1) as [[[w2 t2] r2]|] eqn:El;
    [|done].
  intros [= <- <- <-]. by eapply IH.
Qed.
End CallTheorems.

(** ** Runs that end in one or two rounds *)

Section ShortRuns.
Context {Row Other Err : Type}.
Implicit Types (func : HostOp Row Other Err) (df : DataFrame Row)
  (w : World Row Other) (g : bool) (name : string).


(** The first round on a collection with faulty and faultless rows,
    for an operation that raises exactly on the collections holding a
    faulty row: the faulty rows are excluded and the loop goes on with
    the others. *)
Lemma per_record_first_round func g name (faulty : Row → bool) df w :
  resolve w = Some (g, name, df) →
  range_indexed df →
  (∀ d wi, raises (func (rebind g name (VDataFrame d) wi)).2 = true ↔
           ∃ x, x ∈ d ∧ faulty x.2 = true) →
  (∃ x, x ∈ df ∧ faulty x.2 = true) →
  (∃ x, x ∈ df ∧ faulty x.2 = false) →
  let sub := reset_index (filter (λ x, faulty x.2 = false) df) in
  ∃ w2 ps bad,
    PD_TOL func w =
      match round func g name sub w2 with
      | (w', t, inl e) =>
          Some (w', (Batch df :: ps ++ [Exclude bad df sub]) ++ t, inl e)
      | (w', t, inr (Break v)) =>
          Some (w', (Batch df :: ps ++ [Exclude bad df sub]) ++ t, inr v)
      | (w', t, inr ReturnNone) =>
          Some (w', (Batch df :: ps ++ [Exclude bad df sub]) ++ t, inr VNone)
      | (w', t, inr (Continue df')) =>
          match loop func g name (length df - 1) (len sub) df' w' with
          | Some (w3, t3, r) =>
              Some (w3, (Batch df :: ps ++ [Exclude bad df sub]) ++ t ++ t3, r)
          | None => None
          end
      end ∧
    sub ≠ [] ∧
    Forall (λ ev, is_probe ev) ps ∧ length ps = length df ∧
    (∀ x, x ∈ df → x.1 ∈ bad ↔ faulty x.2 = true).
Proof.
  intros Hr Hri Hf (x0 & Hx0 & Hfx0) (x1 & Hx1 & Hfx1) sub.
  rewrite (PD_TOL_resolved _ _ _ _ _ Hr), loop_first.
  destruct (attempt_faulty func g name faulty Hf df w x0 Hx0 Hfx0)
    as (w1 & e & Ea).
  destruct (probe_rows_per_record func g name faulty Hf df w1 Hri)
    as (w2 & ps & bad & Ep & Hbad).
  assert (bad ≠ ∅) as Hne.
  { intros ->. by apply (Hbad x0 Hx0), not_elem_of_empty in Hfx0. }
  assert (drop bad df = Some (filter (λ x, faulty x.2 = false) df)) as Hd.
  { rewrite drop_index.
    - f_equal. apply filter_ext_in. intros x Hx. rewrite (Hbad x Hx).
      by destruct (faulty x.2).
    - apply probe_rows_spec in Ep as (_ & HP & Hb & _).
      intros l [Hl|[tmp Hl]]%Hb; [by apply not_elem_of_empty in Hl|].
      by apply HP in Hl as [? _]. }
  pose proof (drop_shrinks _ _ _ Hd Hne) as Hlt.
  rewrite <- len_reset_index in Hlt. fold sub in Hlt.
  assert (sub ≠ []) as Hsub.
  { unfold sub, reset_index. intros Hnil.
    apply (f_equal length) in Hnil. rewrite length_imap in Hnil.
    simpl in Hnil. apply length_zero_iff_nil in Hnil.
    eapply (filter_nil_not_elem_of _ _ x1); done. }
  pose proof Ep as (HF & _)%probe_rows_spec.
  pose proof (probe_rows_length _ _ _ _ _ _ _ _ _ _ Ep) as Hlen.
  unfold index in Hlen. rewrite length_fmap in Hlen.
  exists w2, ps, bad. split; [|done].
  rewrite round_run, Ea, Ep. destruct (decide (bad = ∅)); [done|].
  rewrite Hd. simpl. fold sub.
  destruct (decide (len sub = 0)) as [Hz|Hz]; [by apply len_zero in Hz|].
  destruct (length df) as [|fuel] eqn:En.
  { apply length_zero_iff_nil in En as ->. by apply elem_of_nil in Hx0. }
  rewrite loop_S, decide_False by lia.
  replace (S fuel - 1)%nat with fuel by lia.
  destruct (round func g name sub w2) as [[w' t] [e'|[df'|v|]]]; try done.
  destruct (loop func g name fuel (len sub) df' w') as [[[w3 t3] r]|]; [|done].
  done.
Qed.


End ShortRuns.

(** ** The objects of the caller *)

Section CallerObjects.
Context {Row Other Err : Type}.
Variable func : Objects.HostFn Row Other Err.
Variable name : string.
Variable b : Objects.bindings Other.
Implicit Types (m : Objects.Mem Row Other) (df : DataFrame Row).
Hypothesis func_mutates_only : Objects.mutates_only func name.

Lemma kept_objects_length m0 m :
  Objects.kept_objects m0 m →
  (length (Objects.frames m0) ≤ length (Objects.frames m))%nat.
Proof.
  intros H. destruct (length (Objects.frames m0)) as [|n] eqn:E; [lia|].
  assert (n < length (Objects.frames m))%nat; [|lia].
  apply lookup_lt_is_Some. rewrite H by lia.
  apply lookup_lt_is_Some. lia.
Qed.

Lemma kept_objects_new m0 m df :
  Objects.kept_objects m0 m → Objects.kept_objects m0 (Objects.new df m).2.
Proof.
  intros H l Hl. simpl. rewrite lookup_app_l; [by apply H|].
  apply kept_objects_length in H. lia.
Qed.

(** A call on a new object keeps the older ones. *)
Lemma kept_objects_call m0 m df m2 res :
  Objects.kept_objects m0 m →
  Objects.call func name b (Objects.new df m).1 (Objects.new df m).2
    = (m2, res) →
  Objects.kept_objects m0 m2.
Proof.
  intros H Hc l Hl. pose proof (kept_objects_length _ _ H) as Hlen.
  unfold Objects.call in Hc.
  pose proof (func_mutates_only
                (Objects.bind_name name
                   (Objects.PyFrame (Objects.new df m).1) b)
                (Objects.new df m).2 l) as Hm.
  rewrite Hc in Hm. simpl in Hm. rewrite Hm.
  - rewrite lookup_app_l by lia. by apply H.
  - rewrite length_app. simpl. lia.
  - rewrite lookup_bind_name. intros [= E]. lia.
Qed.

Lemma kept_objects_probe_rows m0 l idx bad m m' r :
  Objects.kept_objects m0 m →
  Objects.probe_rows func name b l idx bad m = (m', r) →
  Objects.kept_objects m0 m'.
Proof.
  revert bad m. induction idx as [|i idx IH]; intros bad m H; simpl.
  - intros [= <- _]. exact H.
  - destruct (iloc (Objects.deref m l) i) as [row|];
      [|intros [= <- _]; exact H].
    destruct (Objects.call func name b _ _) as [m2 [v|e]] eqn:Ec;
      apply IH; exact (kept_objects_call _ _ _ _ _ H Ec).
Qed.

Lemma kept_objects_round m0 l m m' r :
  Objects.kept_objects m0 m →
  Objects.round func name b l m = (m', r) →
  Objects.kept_objects m0 m'.
Proof.
  intros H. unfold Objects.round. simpl.
  destruct (Objects.call func name b _ _) as [m2 [v|e]] eqn:Ec;
    pose proof (kept_objects_call _ _ _ _ _ H Ec) as H2.
  - intros [= <- _]. exact H2.
  - destruct (Objects.probe_rows func name b l _ ∅ m2)
      as [m3 [e'|bad]] eqn:Ep;
      pose proof (kept_objects_probe_rows _ _ _ _ _ _ _ H2 Ep) as H3.
    + intros [= <- _]. exact H3.
    + case_decide; [intros [= <- _]; exact H3|].
      destruct (drop bad _) as [dropped|]; [|intros [= <- _]; exact H3].
      pose proof (kept_objects_new _ _ (reset_index dropped) H3) as H4.
      simpl. case_decide; intros [= <- _]; exact H4.
Qed.
End CallerObjects.

Section CallerObjectsTheorem.
Context {Row Other Err : Type}.

(** X12.  With an argument-bound target and an operation that changes
    no object but the one passed for its DataFrame parameter, a run of
    the loop changes no DataFrame object that existed before it: the
    operation only ever gets copies, so the caller's frame holds at
    the end what it held at the start, however many rounds were made
    and however the run ends. *)
Theorem caller_objects_unchanged
    (func : Objects.HostFn Row Other Err) name b fuel last_len l m m' r :
  Objects.mutates_only func name →
  Objects.loop func name b fuel last_len l m = Some (m', r) →
  ∀ l', (l' < length (Objects.frames m))%nat →
        Objects.frames m' !! l' = Objects.frames m !! l'.
Proof.
  intros Hm.
  enough (∀ m0, Objects.kept_objects m0 m →
                Objects.loop func name b fuel last_len l m = Some (m', r) →
                Objects.kept_objects m0 m') as H.
  { intros E. apply (H m); [by intros ? ?|exact E]. }
  revert last_len l m. induction fuel as [|fuel IH];
    intros last_len l m m0 H0; [done|].
  simpl. case_decide; [intros [= <- _]; exact H0|].
  destruct (Objects.round func name b l m) as [m1 [e|[l1|v|]]] eqn:Er;
    pose proof (kept_objects_round func name b Hm _ _ _ _ _ H0 Er) as H1.
  - intros [= <- _]. exact H1.
  - by apply IH.
  - intros [= <- _]. exact H1.
  - intros [= <- _]. exact H1.
Qed.
End CallerObjectsTheorem.

Section CallerObjectsInstance.
(** X12 on scenario 1: the run makes two copies for the batch
    attempts, six for the probes and one frame for the rows it keeps
    (object 8, which it returns); the caller's frame is as it was. *)
Lemma caller_objects_unchanged_witness :
  Objects.mutates_only (floor_in_place "df") "df" ∧
  ∃ m' r,
    Objects.loop (floor_in_place "df") "df" [("df", Objects.PyFrame 0)] 7
      (-1) 0 (Objects.mkMem [one_bad] []) = Some (m', r) ∧
    r = inr (Objects.PyFrame 8) ∧
    Objects.deref m' 8 = one_bad_kept ∧
    length (Objects.frames m') = 10%nat ∧
    ∀ l', (l' < length (Objects.frames (Objects.mkMem (Other:=Z) [one_bad] [])))%nat →
          Objects.frames m' !! l' =
          Objects.frames (Objects.mkMem (Other:=Z) [one_bad] []) !! l'.
Proof.
  split; [apply floor_in_place_mutates_only|].
  eexists _, _. split; [by vm_compute|].
  split; [reflexivity|]. split; [reflexivity|]. split; [reflexivity|].
  eapply (caller_objects_unchanged (floor_in_place "df") "df"
           [("df", Objects.PyFrame 0)] 7 (-1) 0
           (Objects.mkMem [one_bad] []) _ _
           (floor_in_place_mutates_only "df")).
  by vm_compute.
Defined.
End CallerObjectsInstance.

(** ** The decorated functions of [example_usage.py] *)

Section UsageFacts.
Context {Rest F : Type}.
Implicit Types (df d : DataFrame (Usage.employee Rest F)).
Implicit Types (w wi : World (Usage.employee Rest F) Z).
Implicit Types (f : Usage.employee Rest F → string + Usage.employee Rest F).

Lemma assign_succeeds f df :
  (∀ x, x ∈ df → Usage.succeeds f x.2 = true) →
  Usage.assign f df = inr (Usage.processed f df).
Proof.
  unfold Usage.processed.
  induction df as [|x df IH]; intros Hall; [done|].
  assert (Usage.succeeds f x.2 = true) as Hx by (apply Hall; by left).
  unfold Usage.succeeds in Hx. simpl.
  destruct (f x.2) as [e|r]; [done|].
  rewrite IH; [done|]. intros y Hy. apply Hall. by right.
Qed.

Lemma assign_fails f df x :
  x ∈ df → Usage.succeeds f x.2 = false → ∃ e, Usage.assign f df = inl e.
Proof.
  unfold Usage.succeeds. intros Hx Hf.
  induction df as [|y df IH]; [by apply elem_of_nil in Hx|].
  simpl. destruct (f y.2) as [e'|r] eqn:E; [by exists e'|].
  apply elem_of_cons in Hx as [->|Hx]; [by rewrite E in Hf|].
  destruct (IH Hx) as [e He]. rewrite He. by exists e.
Qed.

Lemma kept_succeeds f df x :
  x ∈ Usage.kept f df → Usage.succeeds f x.2 = true.
Proof.
  intros (y & (Hy & _)%list_elem_of_filter & <-)%reset_index_rows. done.
Qed.

(** What the two functions do when the wrapper has bound the target. *)
Lemma salary_in_thousands_run (truediv : Z → Z → option F) d wi :
  Usage.calculate_salary_in_thousands truediv
      (rebind false "df" (VDataFrame d) wi) =
    match Usage.assign (Usage.in_thousands truediv) d with
    | inr d' =>
        (rebind false "df" (VDataFrame d')
           (rebind false "df" (VDataFrame d) wi), Return (VDataFrame d'))
    | inl e => (rebind false "df" (VDataFrame d) wi, Raise (HostError e))
    end.
Proof.
  unfold Usage.calculate_salary_in_thousands. simpl.
  rewrite ns_get_set. by destruct (Usage.assign _ d).
Qed.

Lemma modify_global_run (mul_float : Z → F → option F) (f1_05 : F) d wi :
  Usage.modify_global_dataframe mul_float f1_05
      (rebind true "df_global" (VDataFrame d) wi) =
    match Usage.assign (Usage.adjusted mul_float f1_05) d with
    | inr d' =>
        (rebind true "df_global" (VDataFrame d')
           (rebind true "df_global" (VDataFrame d) wi), Return VNone)
    | inl e =>
        (rebind true "df_global" (VDataFrame d) wi, Raise (HostError e))
    end.
Proof.
  unfold Usage.modify_global_dataframe. simpl.
  rewrite ns_get_set. by destruct (Usage.assign _ d).
Qed.

Section Assignment.
(** A function that assigns one column computed row by row by [f],
    in place, to the frame the wrapper has bound. *)
Variable func : HostOp (Usage.employee Rest F) Z string.
Variable g : bool.
Variable name : string.
Variable f : Usage.employee Rest F → string + Usage.employee Rest F.
Variable retv : DataFrame (Usage.employee Rest F) →
                value (Usage.employee Rest F) Z.
Hypothesis func_run : ∀ d wi,
  func (rebind g name (VDataFrame d) wi) =
    match Usage.assign f d with
    | inr d' =>
        (rebind g name (VDataFrame d') (rebind g name (VDataFrame d) wi),
         Return (retv d'))
    | inl e => (rebind g name (VDataFrame d) wi, Raise (HostError e))
    end.

Lemma assignment_fails_per_record d wi :
  raises (func (rebind g name (VDataFrame d) wi)).2 = true ↔
  ∃ x, x ∈ d ∧ negb (Usage.succeeds f x.2) = true.
Proof.
  rewrite func_run.
  destruct (Usage.assign f d) as [e|d'] eqn:E; simpl.
  - split; [|done]. intros _.
    destruct (decide (Exists (λ x, negb (Usage.succeeds f x.2) = true) d))
      as [Hex|Hall]; [by apply Exists_exists in Hex|].
    apply not_Exists_Forall in Hall; [|solve_decision].
    rewrite assign_succeeds in E; [done|].
    intros x Hx. rewrite Forall_forall in Hall. specialize (Hall x Hx).
    simpl in Hall. by destruct (Usage.succeeds f x.2).
  - split; [done|]. intros (x & Hx & Hfx).
    destruct (assign_fails f d x Hx) as [e He].
    + by destruct (Usage.succeeds f x.2).
    + by rewrite He in E.
Qed.


Lemma decorated_assignment df w :
  (g = false → ∀ d, retv d = VDataFrame d) →
  resolve w = Some (g, name, df) →
  range_indexed df →
  ∃ w' tr,
    PD_TOL func w =
      Some (w', tr,
            inr (if decide (df ≠ [] ∧ Usage.kept f df = []) then VNone
                 else VDataFrame (Usage.processed f (Usage.kept f df)))) ∧
    (g = true →
     ns_get name (globals w') =
       Some (VDataFrame (Usage.processed f (Usage.kept f df)))).
Proof.
  intros Hret Hr Hri.
  set (faulty := λ r : Usage.employee Rest F, negb (Usage.succeeds f r)).
  pose proof assignment_fails_per_record as Hf. fold faulty in Hf.
  assert (∀ d wi fuel last_len,
            last_len ≠ len d →
            (∀ x, x ∈ d → Usage.succeeds f x.2 = true) →
            ∃ w',
              loop func g name (S fuel) last_len d wi =
                Some (w', [Batch d], inr (VDataFrame (Usage.processed f d))) ∧
              (g = true →
               ns_get name (globals w') =
                 Some (VDataFrame (Usage.processed f d)))) as Hrun.
  { intros d wi fuel last_len Hl Hall.
    rewrite loop_S. destruct (decide (last_len = len d)); [done|].
    rewrite round_run, attempt_run, func_run, assign_succeeds by done.
    destruct g.
    - simpl. rewrite ns_get_set. eexists. split; [done|].
      intros _. simpl. by rewrite ns_get_set.
    - rewrite (Hret eq_refl). by eexists. }
  destruct (decide (Exists (λ x, faulty x.2 = true) df)) as [Hbad|Hall].
  - apply Exists_exists in Hbad.
    assert (df ≠ []) as Hne.
    { intros ->. destruct Hbad as (x & Hx & _). by apply elem_of_nil in Hx. }
    destruct (decide (Exists (λ x, faulty x.2 = false) df)) as [Hgood|Hnone].
    + apply Exists_exists in Hgood.
      destruct (per_record_first_round func g name faulty df w Hr Hri Hf
                  Hbad Hgood) as (w2 & ps & bad & E & Hsub & _).
      assert (reset_index (filter (λ x, faulty x.2 = false) df)
              = Usage.kept f df) as Hk.
      { unfold Usage.kept. f_equal. apply filter_ext_in. intros x _.
        unfold faulty. by destruct (Usage.succeeds f x.2). }
      rewrite Hk in E, Hsub.
      rewrite decide_False by (by intros [_ ?]).
      rewrite E, round_run, attempt_run, func_run, assign_succeeds
        by (intros x Hx; by apply (kept_succeeds f df)).
      destruct g.
      * simpl. rewrite ns_get_set. do 2 eexists. split; [done|].
        intros _. simpl. by rewrite ns_get_set.
      * rewrite (Hret eq_refl). by do 2 eexists.
    + apply not_Exists_Forall in Hnone; [|solve_decision].
      rewrite Forall_forall in Hnone.
      assert (Usage.kept f df = []) as ->.
      { unfold Usage.kept. rewrite filter_none; [done|].
        intros x Hx Hn. specialize (Hnone x Hx). unfold faulty in Hnone.
        simpl in Hnone. by rewrite Hn in Hnone. }
      rewrite decide_True by done.
      destruct Hbad as (x0 & Hx0 & Hfx0).
      destruct (assign_fails f df x0 Hx0) as [e0 He0].
      { unfold faulty in Hfx0. by destruct (Usage.succeeds f x0.2). }
      destruct (loop_exhaustion func g name (length df) (-1) df w
                  (rebind g name (VDataFrame df) w) (HostError e0)
                  Hri Hne)
        as (w2 & ps & bad & E).
      * unfold len. lia.
      * by rewrite func_run, He0.
      * intros x wi Hx. apply Hf. exists x. split; [by left|].
        specialize (Hnone x Hx). unfold faulty in Hnone |- *.
        simpl in Hnone |- *. by destruct (Usage.succeeds f x.2).
      * rewrite (PD_TOL_resolved _ _ _ _ _ Hr), E.
        do 2 eexists. split; [done|]. intros ->. simpl.
        by rewrite ns_get_set.
  - apply not_Exists_Forall in Hall; [|solve_decision].
    rewrite Forall_forall in Hall.
    assert (∀ x, x ∈ df → Usage.succeeds f x.2 = true) as Hall'.
    { intros x Hx. specialize (Hall x Hx). unfold faulty in Hall.
      simpl in Hall. by destruct (Usage.succeeds f x.2). }
    assert (Usage.kept f df = df) as Hk.
    { unfold Usage.kept. rewrite filter_all by done.
      by apply reset_index_id. }
    rewrite Hk.
    rewrite decide_False by (by intros [? ?]).
    rewrite (PD_TOL_resolved _ _ _ _ _ Hr).
    destruct (Hrun df w (length df) (-1)) as (w' & E & Hg); [|done|].
    { unfold len. lia. }
    by exists w', [Batch df].
Qed.
End Assignment.
End UsageFacts.

Section UsageTheorems.
Context {Rest F : Type}.
Implicit Types (df : DataFrame (Usage.employee Rest F)).
Implicit Types (w : World (Usage.employee Rest F) Z).

(** X10. The decorated [calculate_salary_in_thousands], called with a
    default-indexed frame whose salaries are [int]s and [str]s: the
    result holds exactly the rows on which the division returns (the
    salary is an [int] and the quotient does not overflow a float), in
    their order and renumbered, each with its [salary_k]; it is [None]
    when the frame has rows and the division returns on none of them.
    The call never raises. *)
Theorem salary_in_thousands_decorated (truediv : Z → Z → option F) df w :
  resolve w = Some (false, "df", df) →
  range_indexed df →
  (∀ r : Usage.employee Rest F,
     Usage.succeeds (Usage.in_thousands truediv) r = true ↔
        ∃ z, Usage.salary r = Usage.PyInt z ∧ is_Some (truediv z 1000)) ∧
  ∃ w' tr,
    PD_TOL (Usage.calculate_salary_in_thousands truediv) w =
      Some (w', tr,
            inr (if decide (df ≠ [] ∧
                            Usage.kept (Usage.in_thousands truediv) df = [])
                 then VNone
                 else VDataFrame
                        (Usage.processed (Usage.in_thousands truediv)
                           (Usage.kept (Usage.in_thousands truediv) df)))).
Proof.
  intros Hr Hri. split.
  - intros r. unfold Usage.succeeds, Usage.in_thousands.
    destruct (Usage.salary r) as [z|s].
    + destruct (truediv z 1000) as [q|] eqn:E.
      * split; [|done]. intros _. exists z. by rewrite E.
      * split; [done|]. intros (z' & [= <-] & Hz). rewrite E in Hz.
        by destruct Hz.
    + split; [done|]. by intros (z & ? & _).
  - destruct (decorated_assignment
                (Usage.calculate_salary_in_thousands truediv) false "df"
                (Usage.in_thousands truediv) VDataFrame
                (salary_in_thousands_run truediv) df w)
      as (w' & tr & E & _); [done..|]. by exists w', tr.
Qed.

(** X11. The decorated [modify_global_dataframe], called while
    [df_global] is the first frame among the globals and has the
    default index, its salaries [int]s and [str]s: afterwards
    [df_global] holds exactly the rows on which the multiplication
    returns (the salary is an [int] that fits a float), renumbered,
    each with its [adjusted_salary]; the call returns that frame (not
    [None], as the undecorated function does), or [None] when the
    frame had rows and the multiplication returns on none of them. *)
Theorem modify_global_decorated (mul_float : Z → F → option F) (f1_05 : F)
    df w :
  resolve w = Some (true, "df_global", df) →
  range_indexed df →
  (∀ r : Usage.employee Rest F,
     Usage.succeeds (Usage.adjusted mul_float f1_05) r = true ↔
        ∃ z, Usage.salary r = Usage.PyInt z ∧ is_Some (mul_float z f1_05)) ∧
  ∃ w' tr,
    PD_TOL (Usage.modify_global_dataframe mul_float f1_05) w =
      Some (w', tr,
            inr (if decide (df ≠ [] ∧
                            Usage.kept (Usage.adjusted mul_float f1_05) df
                            = [])
                 then VNone
                 else VDataFrame
                        (Usage.processed (Usage.adjusted mul_float f1_05)
                           (Usage.kept (Usage.adjusted mul_float f1_05)
                              df)))) ∧
    ns_get "df_global" (globals w') =
      Some (VDataFrame (Usage.processed (Usage.adjusted mul_float f1_05)
                          (Usage.kept (Usage.adjusted mul_float f1_05) df))).
Proof.
  intros Hr Hri. split.
  - intros r. unfold Usage.succeeds, Usage.adjusted.
    destruct (Usage.salary r) as [z|s].
    + destruct (mul_float z f1_05) as [q|] eqn:E.
      * split; [|done]. intros _. exists z. by rewrite E.
      * split; [done|]. intros (z' & [= <-] & Hz). rewrite E in Hz.
        by destruct Hz.
    + split; [done|]. by intros (z & ? & _).
  - destruct (decorated_assignment
                (Usage.modify_global_dataframe mul_float f1_05) true
                "df_global" (Usage.adjusted mul_float f1_05) (λ _, VNone)
                (modify_global_run mul_float f1_05) df w)
      as (w' & tr & E & Hg); [done..|].
    exists w', tr. split; [done|]. by apply Hg.
Qed.
End UsageTheorems.

Section UsageInstances.
(** X10 on the sample data: of the six hundred rows the five hundred
    with an [int] salary are returned; and on a frame with a salary
    that overflows. *)
Lemma salary_in_thousands_decorated_witness :
  resolve Usage.salary_call = Some (false, "df", Usage.error_df) ∧
  range_indexed Usage.error_df ∧
  length (Usage.kept (Usage.in_thousands Usage.fraction) Usage.error_df)
    = 500%nat ∧
  (∃ w' tr,
     PD_TOL (Usage.calculate_salary_in_thousands Usage.fraction)
         (mkWorld [("df", VDataFrame Usage.overflowing)] []) =
       Some (w', tr,
             inr (VDataFrame
                    [(0, Usage.mkEmployee (Usage.PyInt 5000) ()
                           (Some (5000, 1000)) None);
                     (1, Usage.mkEmployee (Usage.PyInt 3000) ()
                           (Some (3000, 1000)) None)]))) ∧
  ((∀ r : Usage.sample_row,
      Usage.succeeds (Usage.in_thousands Usage.fraction) r = true ↔
         ∃ z, Usage.salary r = Usage.PyInt z ∧
              is_Some (Usage.fraction z 1000)) ∧
   ∃ w' tr,
     PD_TOL (Usage.calculate_salary_in_thousands Usage.fraction)
         Usage.salary_call =
       Some (w', tr,
             inr (if decide (Usage.error_df ≠ [] ∧
                             Usage.kept (Usage.in_thousands Usage.fraction)
                               Usage.error_df = []) then VNone
                  else VDataFrame
                         (Usage.processed (Usage.in_thousands Usage.fraction)
                            (Usage.kept (Usage.in_thousands Usage.fraction)
                               Usage.error_df))))).
Proof.
  split; [by vm_compute|]. split; [by vm_compute|]. split; [by vm_compute|].
  split; [vm_compute; by eexists _, _|].
  apply (salary_in_thousands_decorated Usage.fraction Usage.error_df
           Usage.salary_call); by vm_compute.
Defined.

(** X11 on the sample data. *)
Lemma modify_global_decorated_witness :
  resolve Usage.global_call = Some (true, "df_global", Usage.error_df) ∧
  range_indexed Usage.error_df ∧
  ((∀ r : Usage.sample_row,
      Usage.succeeds (Usage.adjusted Usage.scale (105, 100)) r = true ↔
         ∃ z, Usage.salary r = Usage.PyInt z ∧
              is_Some (Usage.scale z (105, 100))) ∧
   ∃ w' tr,
     PD_TOL (Usage.modify_global_dataframe Usage.scale (105, 100))
         Usage.global_call =
       Some (w', tr,
             inr (if decide (Usage.error_df ≠ [] ∧
                             Usage.kept (Usage.adjusted Usage.scale (105, 100))
                               Usage.error_df = []) then VNone
                  else VDataFrame
                         (Usage.processed
                            (Usage.adjusted Usage.scale (105, 100))
                            (Usage.kept
                               (Usage.adjusted Usage.scale (105, 100))
                               Usage.error_df)))) ∧
     ns_get "df_global" (globals w') =
       Some (VDataFrame
               (Usage.processed (Usage.adjusted Usage.scale (105, 100))
                  (Usage.kept (Usage.adjusted Usage.scale (105, 100))
                     Usage.error_df)))).
Proof.
  split; [by vm_compute|]. split; [by vm_compute|].
  apply (modify_global_decorated Usage.scale (105, 100) Usage.error_df
           Usage.global_call); by vm_compute.
Defined.
End UsageInstances.

(** ** Instances *)

Section CaseFacts.
Implicit Types (df : DataFrame cell) (w : world).


Lemma calculate_salary_keeps_globals w :
  globals (calculate_salary_in_thousands w).1 = globals w.
Proof.
  unfold calculate_salary_in_thousands.
  destruct (bound_frame false "df" w) as [df|]; [|done].
  by destruct (column _ df).
Qed.


End CaseFacts.

Section CaseInstances.




(** X6: a run of the salary function leaves the globals of its
    module as they were. *)
Lemma other_namespace_kept_witness :
  loop calculate_salary_in_thousands false "df" 7 (-1) one_bad call_mixed =
    Some (mkWorld [("factor", VOther 2);
                   ("df", VDataFrame (frame [Num 5; Num 8; Num 0; Num 0; Num 3]))]
            [("df_global", VDataFrame all_good)],
          one_bad_trace,
          inr (VDataFrame (frame [Num 5; Num 8; Num 0; Num 0; Num 3]))) ∧
  globals (mkWorld [("factor", VOther 2);
                    ("df", VDataFrame (frame [Num 5; Num 8; Num 0; Num 0; Num 3]))]
             [("df_global", VDataFrame all_good)]) = globals call_mixed.
Proof.
  split; [by vm_compute|].
  apply (other_namespace_kept calculate_salary_in_thousands false "df"
           (λ ns, ns = globals call_mixed) 7 (-1) one_bad call_mixed
           (mkWorld [("factor", VOther 2);
                     ("df", VDataFrame (frame [Num 5; Num 8; Num 0; Num 0; Num 3]))]
              [("df_global", VDataFrame all_good)])
           one_bad_trace
           (inr (VDataFrame (frame [Num 5; Num 8; Num 0; Num 0; Num 3])))).
  - intros wi Hwi. simpl. by rewrite calculate_salary_keeps_globals.
  - reflexivity.
  - by vm_compute.
Defined.


End CaseInstances.
